(** * GoToAnimator: the camera-motion controller of the globe viewer

    A shallow embedding of [src/util/GoToAnimator.js] and the properties of
    its start / cancel / tick state machine.

    Numbers.  JavaScript numbers are embedded as exact rationals ([Q]):
    [Math.min], [Math.max] and [Math.abs] are [Qmin], [Qmax] and [Qabs], the
    comparisons are the boolean tests of [QArith], and [===] on numbers is
    [Qeq_bool].  Rounding, NaN and the infinities are outside the embedding;
    every division the animator performs has a divisor that the statements
    below keep away from zero where the quotient matters.

    Effects.  The animator object ([this]), the navigator's view state and
    the clock are threaded through a state monad; a [throw] ends the call
    with the state as it was at the throw; the calls the animator makes on
    its host (writing the camera, redraw, [setTimeout], the completion
    callback, the logger) are emitted as a list of events in program order. *)

From Stdlib Require Import QArith Qminmax Qabs Lqa Lia List String Bool.
Import ListNotations.
Local Open Scope Q_scope.

(** ** Numeric tests of the source *)

(** [a < b] on numbers. *)
Definition Qlt_bool (a b : Q) : bool := negb (Qle_bool b a).

(** ** Data model *)

(** [geom/Position]: latitude, longitude, altitude. *)
Module Position.
Record t : Type := mk { latitude : Q; longitude : Q; altitude : Q }.
End Position.

(** [geom/Location]: latitude, longitude. *)
Module Location.
Record t : Type := mk { latitude : Q; longitude : Q }.
End Location.

(** [geom/Vec3]. *)
Module Vec3.
Record t : Type := mk { x : Q; y : Q; z : Q }.
End Vec3.

(** Modelled from the spec: [navigate/Camera] is not part of the sources at
    hand; the animator reads and writes [latitude], [longitude] and
    [altitude], and the glossary gives a camera heading and tilt (and the
    viewer a roll) that the animator never touches. *)
Module Camera.
Record t : Type := mk {
  latitude : Q; longitude : Q; altitude : Q;
  heading : Q; tilt : Q; roll : Q }.

(** [camera.altitude = v] *)
Definition set_altitude (c : t) (v : Q) : t :=
  mk (latitude c) (longitude c) v (heading c) (tilt c) (roll c).
(** [camera.latitude = v] *)
Definition set_latitude (c : t) (v : Q) : t :=
  mk v (longitude c) (altitude c) (heading c) (tilt c) (roll c).
(** [camera.longitude = v] *)
Definition set_longitude (c : t) (v : Q) : t :=
  mk (latitude c) v (altitude c) (heading c) (tilt c) (roll c).
End Camera.

(** Modelled from the spec: [navigate/LookAt] is not part of the sources at
    hand; the animator writes [latitude], [longitude] and [altitude], the
    glossary adds range, heading and tilt. *)
Module LookAt.
Record t : Type := mk {
  latitude : Q; longitude : Q; altitude : Q;
  range : Q; heading : Q; tilt : Q; roll : Q }.

Definition set_altitude (l : t) (v : Q) : t :=
  mk (latitude l) (longitude l) v (range l) (heading l) (tilt l) (roll l).
Definition set_latitude (l : t) (v : Q) : t :=
  mk v (longitude l) (altitude l) (range l) (heading l) (tilt l) (roll l).
Definition set_longitude (l : t) (v : Q) : t :=
  mk (latitude l) v (altitude l) (range l) (heading l) (tilt l) (roll l).
End LookAt.

(** The [position] argument of [goTo]: a Location or a Position, so its
    [altitude] property may be absent ([null] or [undefined]). *)
Record PositionArg : Type := mkPositionArg {
  arg_latitude : Q; arg_longitude : Q; arg_altitude : option Q }.

(** A completion callback is a function value of the caller; the embedding
    keeps its identity only. *)
Definition Callback : Type := nat.

(** What a call can throw. *)
Inductive Exn : Type :=
| ArgumentError (message : string)
| ReferenceError (identifier : string).

(** Completion of a call: it returns a value or throws. *)
Inductive Completion (A : Type) : Type :=
| Normal (a : A)
| Throw (e : Exn).
Arguments Normal {A} a.
Arguments Throw {A} e.

(** Calls the animator makes on its host, in program order. *)
Inductive Event : Type :=
| SetAsCamera (camera : Camera.t)   (* wwd.navigator.setAsCamera(globe, camera) *)
| Redraw                            (* wwd.redraw() *)
| SetTimeout (delay : Q)            (* setTimeout(timerCallback, delay) *)
| Completed (callback : Callback)   (* completionCallback(thisAnimator) *)
| Logged (message : string).        (* Logger.logMessage(...) *)

Definition isSetTimeout (e : Event) : bool :=
  match e with SetTimeout _ => true | _ => false end.
Definition isCompleted (e : Event) : bool :=
  match e with Completed _ => true | _ => false end.

(** Number of elements of [l] that satisfy [p]. *)
Definition count {A : Type} (p : A -> bool) (l : list A) : nat :=
  List.length (List.filter p l).

(** The identifiers the module binds: the parameters of the function given
    to [define] and its own [var]. *)
Definition moduleBindings : list string :=
  ["Camera"; "Location"; "Logger"; "LookAt"; "Position"; "Vec3";
   "GoToAnimator"]%string.

Section Animator.

(** The navigator's view state, whatever its representation. *)
Variable Nav : Type.

(** The WorldWindow as the animator uses it: navigator, globe, canvas. *)
Record WorldWindow : Type := mkWorldWindow {
  (* wwd.navigator.getAsCamera(wwd.globe, camera) *)
  getAsCamera : Nav -> Camera.t;
  (* wwd.navigator.setAsCamera(wwd.globe, camera) *)
  setAsCamera : Camera.t -> Nav -> Nav;
  (* wwd.navigator.getAsLookAt(wwd.globe, lookAt) *)
  getAsLookAt : Nav -> LookAt.t;
  (* wwd.navigator.currentState().pixelSizeAtDistance(distance) *)
  pixelSizeAtDistance : Nav -> Q -> Q;
  (* wwd.globe.lookAtToCamera(lookAt, resultCamera) *)
  lookAtToCamera : LookAt.t -> Camera.t;
  (* wwd.globe.computePointFromLocation(latitude, longitude, result) *)
  computePointFromLocation : Q -> Q -> Vec3.t;
  (* wwd.globe.equatorialRadius *)
  equatorialRadius : Q;
  (* wwd.canvas.clientWidth *)
  clientWidth : Q }.

(** What the module reaches outside the WorldWindow: the static functions
    of Location, [Vec3.distanceTo], the clock and the global scope. *)
Record Realm : Type := mkRealm {
  greatCircleDistance : Position.t -> Position.t -> Q;
  greatCircleAzimuth : Position.t -> Position.t -> Q;
  (* Location.greatCircleLocation(location, azimuth, pathLength, result) *)
  greatCircleLocation : Position.t -> Q -> Q -> Location.t;
  distanceTo : Vec3.t -> Vec3.t -> Q;
  (* the successive readings of Date.now() *)
  timeline : nat -> Q;
  (* the identifiers bound in the global scope *)
  globalBindings : list string }.

Variable realm : Realm.

(** The animator object.  The constructor assigns [wwd],
    [animationFrequency], [travelTime] and [cancelled]; the other fields are
    assigned by [goTo], and the ticks read them only after a [goTo] that has
    registered a tick, that is, after it has assigned them all. *)
Record GoToAnimator : Type := mkGoToAnimator {
  wwd : WorldWindow;
  animationFrequency : Q;
  travelTime : Q;
  cancelled : bool;
  completionCallback : option Callback;
  targetPosition : Position.t;
  startPosition : Position.t;
  startTime : Q;
  maxAltitude : Q;
  maxAltitudeReachedTime : option Q;   (* a clock reading, or null *)
  panVelocity : Q;
  rangeVelocity : Q }.

(** [this.field = v], one function per field. *)
Definition set_wwd v (a : GoToAnimator) : GoToAnimator :=
  mkGoToAnimator v (animationFrequency a) (travelTime a) (cancelled a)
    (completionCallback a) (targetPosition a) (startPosition a) (startTime a)
    (maxAltitude a) (maxAltitudeReachedTime a) (panVelocity a) (rangeVelocity a).
Definition set_animationFrequency v (a : GoToAnimator) : GoToAnimator :=
  mkGoToAnimator (wwd a) v (travelTime a) (cancelled a)
    (completionCallback a) (targetPosition a) (startPosition a) (startTime a)
    (maxAltitude a) (maxAltitudeReachedTime a) (panVelocity a) (rangeVelocity a).
Definition set_travelTime v (a : GoToAnimator) : GoToAnimator :=
  mkGoToAnimator (wwd a) (animationFrequency a) v (cancelled a)
    (completionCallback a) (targetPosition a) (startPosition a) (startTime a)
    (maxAltitude a) (maxAltitudeReachedTime a) (panVelocity a) (rangeVelocity a).
Definition set_cancelled v (a : GoToAnimator) : GoToAnimator :=
  mkGoToAnimator (wwd a) (animationFrequency a) (travelTime a) v
    (completionCallback a) (targetPosition a) (startPosition a) (startTime a)
    (maxAltitude a) (maxAltitudeReachedTime a) (panVelocity a) (rangeVelocity a).
Definition set_completionCallback v (a : GoToAnimator) : GoToAnimator :=
  mkGoToAnimator (wwd a) (animationFrequency a) (travelTime a) (cancelled a)
    v (targetPosition a) (startPosition a) (startTime a)
    (maxAltitude a) (maxAltitudeReachedTime a) (panVelocity a) (rangeVelocity a).
Definition set_targetPosition v (a : GoToAnimator) : GoToAnimator :=
  mkGoToAnimator (wwd a) (animationFrequency a) (travelTime a) (cancelled a)
    (completionCallback a) v (startPosition a) (startTime a)
    (maxAltitude a) (maxAltitudeReachedTime a) (panVelocity a) (rangeVelocity a).
Definition set_startPosition v (a : GoToAnimator) : GoToAnimator :=
  mkGoToAnimator (wwd a) (animationFrequency a) (travelTime a) (cancelled a)
    (completionCallback a) (targetPosition a) v (startTime a)
    (maxAltitude a) (maxAltitudeReachedTime a) (panVelocity a) (rangeVelocity a).
Definition set_startTime v (a : GoToAnimator) : GoToAnimator :=
  mkGoToAnimator (wwd a) (animationFrequency a) (travelTime a) (cancelled a)
    (completionCallback a) (targetPosition a) (startPosition a) v
    (maxAltitude a) (maxAltitudeReachedTime a) (panVelocity a) (rangeVelocity a).
Definition set_maxAltitude v (a : GoToAnimator) : GoToAnimator :=
  mkGoToAnimator (wwd a) (animationFrequency a) (travelTime a) (cancelled a)
    (completionCallback a) (targetPosition a) (startPosition a) (startTime a)
    v (maxAltitudeReachedTime a) (panVelocity a) (rangeVelocity a).
Definition set_maxAltitudeReachedTime v (a : GoToAnimator) : GoToAnimator :=
  mkGoToAnimator (wwd a) (animationFrequency a) (travelTime a) (cancelled a)
    (completionCallback a) (targetPosition a) (startPosition a) (startTime a)
    (maxAltitude a) v (panVelocity a) (rangeVelocity a).
Definition set_panVelocity v (a : GoToAnimator) : GoToAnimator :=
  mkGoToAnimator (wwd a) (animationFrequency a) (travelTime a) (cancelled a)
    (completionCallback a) (targetPosition a) (startPosition a) (startTime a)
    (maxAltitude a) (maxAltitudeReachedTime a) v (rangeVelocity a).
Definition set_rangeVelocity v (a : GoToAnimator) : GoToAnimator :=
  mkGoToAnimator (wwd a) (animationFrequency a) (travelTime a) (cancelled a)
    (completionCallback a) (targetPosition a) (startPosition a) (startTime a)
    (maxAltitude a) (maxAltitudeReachedTime a) (panVelocity a) v.

(** ** The state the code runs in, and its monad *)

Record State : Type := mkState {
  this : GoToAnimator;     (* the animator object *)
  navigator : Nav;         (* the view state held by wwd.navigator *)
  clockReads : nat }.      (* how many times Date.now() has been read *)

Definition M (A : Type) : Type := State -> Completion A * State * list Event.

Definition ret {A : Type} (a : A) : M A := fun s => (Normal a, s, []).

Definition bind {A B : Type} (m : M A) (k : A -> M B) : M B :=
  fun s =>
    match m s with
    | (Normal a, s1, ev1) =>
        match k a s1 with
        | (r, s2, ev2) => (r, s2, ev1 ++ ev2)
        end
    | (Throw e, s1, ev1) => (Throw e, s1, ev1)
    end.

Definition throw {A : Type} (e : Exn) : M A := fun s => (Throw e, s, []).
Definition emit (e : Event) : M unit := fun s => (Normal tt, s, [e]).
Definition getThis : M GoToAnimator := fun s => (Normal (this s), s, []).
Definition assign (f : GoToAnimator -> GoToAnimator) : M unit :=
  fun s => (Normal tt, mkState (f (this s)) (navigator s) (clockReads s), []).


Notation "x <- m ;; k" := (bind m (fun x => k))
  (at level 61, m at next level, right associativity).
Notation "m ;;; k" := (bind m (fun _ => k))
  (at level 61, right associativity).

(** [Date.now()]: the next reading of the clock. *)
Definition Date_now : M Q :=
  fun s => (Normal (timeline realm (clockReads s)),
            mkState (this s) (navigator s) (S (clockReads s)), []).

(** [var camera = new Camera(); this.wwd.navigator.getAsCamera(globe, camera)] *)
Definition navigator_getAsCamera : M Camera.t :=
  fun s => (Normal (getAsCamera (wwd (this s)) (navigator s)), s, []).

(** [this.wwd.navigator.setAsCamera(this.wwd.globe, camera)] *)
Definition navigator_setAsCamera (camera : Camera.t) : M unit :=
  fun s => (Normal tt,
            mkState (this s) (setAsCamera (wwd (this s)) camera (navigator s))
                    (clockReads s),
            [SetAsCamera camera]).

(** [var lookAt = new LookAt(); this.wwd.navigator.getAsLookAt(globe, lookAt)] *)
Definition navigator_getAsLookAt : M LookAt.t :=
  fun s => (Normal (getAsLookAt (wwd (this s)) (navigator s)), s, []).

(** [this.wwd.navigator.currentState().pixelSizeAtDistance(distance)] *)
Definition navigator_pixelSizeAtDistance (distance : Q) : M Q :=
  fun s => (Normal (pixelSizeAtDistance (wwd (this s)) (navigator s) distance),
            s, []).

(** Whether an identifier of the module resolves: in the module's own
    bindings, else in the global scope. *)
Definition resolves (identifier : string) : bool :=
  existsb (String.eqb identifier) moduleBindings
  || existsb (String.eqb identifier) (globalBindings realm).

(** Modelled from the spec: [util/Logger] is not part of the sources at
    hand; [Logger.logMessage(level, className, functionName, message)] logs
    a message and returns it. *)
Definition Logger_logMessage (functionName message : string) : M string :=
  let text :=
    ("GoToAnimator." ++ functionName ++ ": " ++ message)%string in
  emit (Logged text) ;;;
  ret text.

(** [throw new ArgumentError(Logger.logMessage(Logger.LEVEL_SEVERE,
    "GoToAnimator", functionName, message))].  The constructor expression
    is evaluated before the argument list, and the module's dependency list
    does not bind [ArgumentError]: when the global scope does not either,
    the evaluation stops there with a ReferenceError and the logger is not
    called. *)
Definition throwArgumentError {A : Type} (functionName message : string)
  : M A :=
  if resolves "ArgumentError" then
    text <- Logger_logMessage functionName message ;;
    throw (ArgumentError text)
  else
    throw (ReferenceError "ArgumentError").

(** [!x] for a field that holds a number or [null]. *)
Definition falsy (x : option Q) : bool :=
  match x with
  | None => true
  | Some t => Qeq_bool t 0
  end.

(** The number a field that holds a number or [null] stands for in
    arithmetic ([null] is 0). *)
Definition toNumber (x : option Q) : Q :=
  match x with
  | None => 0
  | Some t => t
  end.

(** ** The constructor, [cancel] *)

(** [new GoToAnimator(worldWindow)], run on the fresh object [this]. *)
Definition GoToAnimator_constructor (worldWindow : option WorldWindow)
  : M unit :=
  match worldWindow with
  | None => throwArgumentError "constructor" "missingWorldWindow"
  | Some worldWindow =>
      assign (set_wwd worldWindow) ;;;
      assign (set_animationFrequency 20) ;;;
      assign (set_travelTime 3000) ;;;
      assign (set_cancelled false)
  end.

(** [GoToAnimator.prototype.cancel] *)
Definition cancel : M unit :=
  assign (set_cancelled true).

(** ** [getTargetPosition] *)

Definition getTargetPosition (position : PositionArg) : M Position.t :=
  lookAt <- navigator_getAsLookAt ;;
  let lookAt :=
    match arg_altitude position with
    | Some altitude => LookAt.set_altitude lookAt altitude
    | None => lookAt
    end in
  let lookAt := LookAt.set_latitude lookAt (arg_latitude position) in
  let lookAt := LookAt.set_longitude lookAt (arg_longitude position) in
  this <- getThis ;;
  let resultCamera := lookAtToCamera (wwd this) lookAt in
  ret (Position.mk (Camera.latitude resultCamera)
                   (Camera.longitude resultCamera)
                   (Camera.altitude resultCamera)).

(** ** The altitude sub-motion *)

Definition updateRange (currentPosition : Position.t) : M bool :=
  camera <- navigator_getAsCamera ;;
  this <- getThis ;;
  if falsy (maxAltitudeReachedTime this) then
    now <- Date_now ;;
    let elapsedTime := now - startTime this in
    let nextRange :=
      Qmin (Position.altitude (startPosition this)
            + rangeVelocity this * elapsedTime)
           (maxAltitude this) in
    (if Qlt_bool (Qabs (Camera.altitude camera - nextRange)) 1 then
       now <- Date_now ;;
       assign (set_maxAltitudeReachedTime (Some now))
     else ret tt) ;;;
    let camera := Camera.set_altitude camera nextRange in
    navigator_setAsCamera camera ;;;
    ret true
  else
    now <- Date_now ;;
    let elapsedTime := now - toNumber (maxAltitudeReachedTime this) in
    let nextRange :=
      if Qlt_bool (Position.altitude (targetPosition this)) (maxAltitude this)
      then
        let nextRange := maxAltitude this - rangeVelocity this * elapsedTime in
        Qmax nextRange (Position.altitude (targetPosition this))
      else
        let nextRange := maxAltitude this + rangeVelocity this * elapsedTime in
        Qmin nextRange (Position.altitude (targetPosition this)) in
    let camera := Camera.set_altitude camera nextRange in
    navigator_setAsCamera camera ;;;
    ret (Qlt_bool 1 (Qabs (Camera.altitude camera
                           - Position.altitude (targetPosition this)))).

(** ** The pan sub-motion *)

Definition updateLocation (currentPosition : Position.t) : M bool :=
  camera <- navigator_getAsCamera ;;
  this <- getThis ;;
  now <- Date_now ;;
  let elapsedTime := now - startTime this in
  let distanceTravelled :=
    greatCircleDistance realm (startPosition this) currentPosition in
  let distanceRemaining :=
    greatCircleDistance realm currentPosition (targetPosition this) in
  let azimuthToTarget :=
    greatCircleAzimuth realm currentPosition (targetPosition this) in
  let distanceForNow := panVelocity this * elapsedTime in
  let nextDistance :=
    Qmin (distanceForNow - distanceTravelled) distanceRemaining in
  let nextLocation :=
    greatCircleLocation realm currentPosition azimuthToTarget nextDistance in
  let camera := Camera.set_latitude camera (Location.latitude nextLocation) in
  let camera := Camera.set_longitude camera (Location.longitude nextLocation) in
  navigator_setAsCamera camera ;;;
  let locationReached :=
    Qlt_bool nextDistance (1 / equatorialRadius (wwd this)) in
  let locationReached :=
    if Qlt_bool 4000 elapsedTime then true else locationReached in
  ret (negb locationReached).

(** ** One tick *)

Definition update : M bool :=
  camera <- navigator_getAsCamera ;;
  let currentPosition :=
    Position.mk (Camera.latitude camera) (Camera.longitude camera)
                (Camera.altitude camera) in
  continueAnimation <- updateRange currentPosition ;;
  located <- updateLocation currentPosition ;;
  let continueAnimation := located || continueAnimation in
  emit Redraw ;;;
  ret continueAnimation.

(** The function [goTo] gives to [setTimeout]. *)
Definition timerCallback : M unit :=
  thisAnimator <- getThis ;;
  if cancelled thisAnimator then
    match completionCallback thisAnimator with
    | Some callback => emit (Completed callback)
    | None => ret tt
    end
  else
    continueAnimation <- update ;;
    thisAnimator <- getThis ;;
    if continueAnimation then
      emit (SetTimeout (animationFrequency thisAnimator))
    else
      match completionCallback thisAnimator with
      | Some callback => emit (Completed callback)
      | None => ret tt
      end.

(** ** [goTo] *)

(** [setTimeout(timerCallback, delay)] *)
Definition setTimeout (delay : Q) : M unit := emit (SetTimeout delay).

(** The approximate viewport size in radians:
    [pixelSizeAtDistance(startPosition.altitude) * clientWidth / equatorialRadius]. *)
Definition viewportSizeOf (w : WorldWindow) (nav : Nav) (startAltitude : Q) : Q :=
  pixelSizeAtDistance w nav startAltitude * clientWidth w / equatorialRadius w.

(** The total range to travel. *)
Definition rangeDistanceOf (maxAltitude : Q) (startPosition targetPosition : Position.t)
  : Q :=
  if Qlt_bool (Position.altitude startPosition) maxAltitude then
    let rangeDistance := Qmax 0 (maxAltitude - Position.altitude startPosition) in
    rangeDistance + Qabs (Position.altitude targetPosition - maxAltitude)
  else
    Qabs (Position.altitude targetPosition - Position.altitude startPosition).

(** The distance that governs the animation duration. *)
Definition animationDistanceOf (panDistance rangeDistance equatorialRadius : Q) : Q :=
  Qmax panDistance (rangeDistance / equatorialRadius).

(** The animation duration, for a distance that is not zero. *)
Definition animationDurationOf (travelTime animationDistance viewportSize : Q) : Q :=
  let animationDuration := travelTime in
  let animationDuration :=
    if Qlt_bool animationDistance (2 * viewportSize) then
      Qmin ((animationDistance / viewportSize) * travelTime) travelTime
    else animationDuration in
  Qmax 1 animationDuration.

Definition goTo (position : option PositionArg)
  (completionCallback : option Callback) : M unit :=
  match position with
  | None => throwArgumentError "goTo" "missingPosition"
  | Some position =>
      camera <- navigator_getAsCamera ;;
      assign (set_completionCallback completionCallback) ;;;
      assign (set_cancelled false) ;;;
      target <- getTargetPosition position ;;
      assign (set_targetPosition target) ;;;
      assign (set_startPosition
                (Position.mk (Camera.latitude camera) (Camera.longitude camera)
                             (Camera.altitude camera))) ;;;
      now <- Date_now ;;
      assign (set_startTime now) ;;;
      this <- getThis ;;
      let panDistance :=
        greatCircleDistance realm (startPosition this) (targetPosition this) in
      let pA :=
        computePointFromLocation (wwd this)
          (Position.latitude (startPosition this))
          (Position.longitude (startPosition this)) in
      let pB :=
        computePointFromLocation (wwd this)
          (Position.latitude (targetPosition this))
          (Position.longitude (targetPosition this)) in
      assign (set_maxAltitude (distanceTo realm pA pB)) ;;;
      pixelSize <- navigator_pixelSizeAtDistance
                     (Position.altitude (startPosition this)) ;;
      let viewportSize :=
        pixelSize * clientWidth (wwd this) / equatorialRadius (wwd this) in
      (if Qle_bool panDistance (2 * viewportSize) then
         assign (set_maxAltitude (Position.altitude (startPosition this)))
       else ret tt) ;;;
      this <- getThis ;;
      reached <- (if Qle_bool (maxAltitude this) (Camera.altitude camera) then
                    now <- Date_now ;; ret (Some now)
                  else ret None) ;;
      assign (set_maxAltitudeReachedTime reached) ;;;
      let rangeDistance :=
        rangeDistanceOf (maxAltitude this) (startPosition this)
                        (targetPosition this) in
      let animationDistance :=
        animationDistanceOf panDistance rangeDistance
                            (equatorialRadius (wwd this)) in
      if Qeq_bool animationDistance 0 then
        ret tt
      else
        let animationDuration :=
          animationDurationOf (travelTime this) animationDistance viewportSize in
        assign (set_panVelocity (panDistance / animationDuration)) ;;;
        assign (set_rangeVelocity (rangeDistance / animationDuration)) ;;;
        setTimeout (animationFrequency this)
  end.

(** ** The tick sequence of a run

    The ticks that follow one [setTimeout] registration: each firing runs
    [timerCallback], and the sequence goes on while a firing registers the
    next one.  Between two firings anything may happen to the state (the
    user navigates, [cancel] or [goTo] is called, the completion callback of
    another run executes): [interference] lists what happens before each
    firing.  The result is the events of the firings, in order. *)
Fixpoint tickSequence (interference : list (State -> State)) (s : State)
  : list Event :=
  match interference with
  | [] => []
  | before :: rest =>
      match timerCallback (before s) with
      | (_, s', events) =>
          events ++ (if existsb isSetTimeout events
                     then tickSequence rest s' else [])
      end
  end.

End Animator.

Arguments getAsCamera {Nav}.
Arguments setAsCamera {Nav}.
Arguments getAsLookAt {Nav}.
Arguments pixelSizeAtDistance {Nav}.
Arguments lookAtToCamera {Nav}.
Arguments computePointFromLocation {Nav}.
Arguments equatorialRadius {Nav}.
Arguments clientWidth {Nav}.
Arguments wwd {Nav}.
Arguments animationFrequency {Nav}.
Arguments travelTime {Nav}.
Arguments cancelled {Nav}.
Arguments completionCallback {Nav}.
Arguments targetPosition {Nav}.
Arguments startPosition {Nav}.
Arguments startTime {Nav}.
Arguments maxAltitude {Nav}.
Arguments maxAltitudeReachedTime {Nav}.
Arguments panVelocity {Nav}.
Arguments rangeVelocity {Nav}.
Arguments this {Nav}.
Arguments navigator {Nav}.
Arguments clockReads {Nav}.
Arguments mkState {Nav}.
Arguments mkGoToAnimator {Nav}.
Arguments mkWorldWindow {Nav}.
Arguments viewportSizeOf {Nav}.
Arguments updateRange {Nav}.
Arguments updateLocation {Nav}.
Arguments update {Nav}.
Arguments timerCallback {Nav}.
Arguments tickSequence {Nav}.
Arguments goTo {Nav}.
Arguments cancel {Nav}.
Arguments getTargetPosition {Nav}.
Arguments GoToAnimator_constructor {Nav}.
Arguments set_wwd {Nav}.
Arguments set_animationFrequency {Nav}.
Arguments set_travelTime {Nav}.
Arguments set_cancelled {Nav}.
Arguments set_completionCallback {Nav}.
Arguments set_targetPosition {Nav}.
Arguments set_startPosition {Nav}.
Arguments set_startTime {Nav}.
Arguments set_maxAltitude {Nav}.
Arguments set_maxAltitudeReachedTime {Nav}.
Arguments set_panVelocity {Nav}.
Arguments set_rangeVelocity {Nav}.

(** ** The page's timers

    What happens on the page, one thing after the other: the application
    calls a method of the animator, the user moves the view, or a pending
    timer fires. *)
Inductive Occurrence (Nav : Type) : Type :=
| Calls (call : M Nav unit)
| Disturbs (f : State Nav -> State Nav)
| Fires.
Arguments Calls {Nav} call.
Arguments Disturbs {Nav} f.
Arguments Fires {Nav}.

(** The events of a sequence of occurrences.  Every [setTimeout] of the
    module registers a [timerCallback] closure over the one animator, and
    none is ever cleared: the pending timers are told apart by nothing, so
    the loop keeps their number, [pending].  A call or a firing adds the
    registrations it makes; a firing takes one away; with none pending
    nothing fires. *)
Fixpoint eventLoop {Nav : Type} (realm : Realm)
  (occurrences : list (Occurrence Nav)) (pending : nat) (s : State Nav)
  : list Event :=
  match occurrences with
  | [] => []
  | Calls call :: rest =>
      match call s with
      | (_, s', events) =>
          events
          ++ eventLoop realm rest (pending + count isSetTimeout events) s'
      end
  | Disturbs f :: rest => eventLoop realm rest pending (f s)
  | Fires :: rest =>
      match pending with
      | O => eventLoop realm rest O s
      | S others =>
          match timerCallback realm s with
          | (_, s', events) =>
              events
              ++ eventLoop realm rest (others + count isSetTimeout events) s'
          end
      end
  end.

(** ** A host to run the animator on

    The viewer, the globe and the great-circle functions are collaborators
    outside the sources at hand.  This host is the simplest one that follows
    their contracts: the navigator stores the camera it is given; the camera
    looks straight down on its look-at point; the globe is a sphere of the
    WGS84 equatorial radius; positions move on the equator or along a
    meridian, where great-circle distance is linear in the angle.  Latitude,
    longitude and azimuth are in degrees, distances in radians. *)
Module Host.

(** Radians per degree, with pi to sixteen digits. *)
Definition DEGREES_TO_RADIANS : Q := 3141592653589793 # 180000000000000000.
Definition RADIANS_TO_DEGREES : Q := 180000000000000000 # 3141592653589793.

Definition radius : Q := 6378137.

(** Sine and cosine of an angle in degrees, exact for the multiples of 90
    in [-180, 180], the only angles the runs below use. *)
Definition sinDegrees (a : Q) : Q :=
  if Qeq_bool a 90 then 1 else if Qeq_bool a (-90) then -1 else 0.
Definition cosDegrees (a : Q) : Q :=
  if Qeq_bool a 0 then 1
  else if Qeq_bool a 180 || Qeq_bool a (-180) then -1 else 0.

(** Square root of a rational whose numerator and denominator are squares. *)
Definition sqrtQ (q : Q) : Q :=
  Z.sqrt (Qnum q) # Pos.sqrt (Qden q).

(** Modelled from the spec: [globe.computePointFromLocation], the Cartesian
    point of a surface location, on a sphere. *)
Definition computePointFromLocation (latitude longitude : Q) : Vec3.t :=
  Vec3.mk (radius * cosDegrees latitude * sinDegrees longitude)
          (radius * sinDegrees latitude)
          (radius * cosDegrees latitude * cosDegrees longitude).

(** Modelled from the spec: [Vec3.distanceTo], the straight-line distance
    between two points. *)
Definition distanceTo (a b : Vec3.t) : Q :=
  let dx := Vec3.x a - Vec3.x b in
  let dy := Vec3.y a - Vec3.y b in
  let dz := Vec3.z a - Vec3.z b in
  sqrtQ (Qred (dx * dx + dy * dy + dz * dz)).

(** Modelled from the spec: [navigator.getAsLookAt], for a camera that looks
    straight down: it looks at the surface point below it, from a range
    equal to its altitude. *)
Definition getAsLookAt (nav : Camera.t) : LookAt.t :=
  LookAt.mk (Camera.latitude nav) (Camera.longitude nav) 0
            (Camera.altitude nav)
            (Camera.heading nav) (Camera.tilt nav) (Camera.roll nav).

(** Modelled from the spec: [globe.lookAtToCamera], for a camera that looks
    straight down: it is above the look-at point, higher by the range. *)
Definition lookAtToCamera (l : LookAt.t) : Camera.t :=
  Camera.mk (LookAt.latitude l) (LookAt.longitude l)
            (LookAt.altitude l + LookAt.range l)
            (LookAt.heading l) (LookAt.tilt l) (LookAt.roll l).

(** Modelled from the spec: the WorldWindow.  The navigator stores the
    camera; the size of a pixel grows linearly with the distance, by
    [pixelFactor]; [width] is the client width of the canvas. *)
Definition worldWindow (pixelFactor width : Q) : WorldWindow Camera.t :=
  mkWorldWindow
    (fun nav => nav)
    (fun camera _ => camera)
    getAsLookAt
    (fun _ distance => pixelFactor * distance)
    lookAtToCamera
    computePointFromLocation
    radius
    width.

(** Modelled from the spec: [Location.greatCircleDistance], for two points
    of the equator or of one meridian. *)
Definition greatCircleDistance (a b : Position.t) : Q :=
  (Qabs (Position.latitude b - Position.latitude a)
   + Qabs (Position.longitude b - Position.longitude a)) * DEGREES_TO_RADIANS.

(** Modelled from the spec: [Location.greatCircleAzimuth], the bearing from
    [a] to [b]: 0 for equal points, else east or west along the equator,
    north or south along a meridian. *)
Definition greatCircleAzimuth (a b : Position.t) : Q :=
  if Qlt_bool (Position.longitude a) (Position.longitude b) then 90
  else if Qlt_bool (Position.longitude b) (Position.longitude a) then -90
  else if Qlt_bool (Position.latitude b) (Position.latitude a) then 180
  else 0.

(** Modelled from the spec: [Location.greatCircleLocation], the point at
    [pathLength] radians from [p] on the bearing [azimuth], for the four
    cardinal bearings; the point itself for a zero path length. *)
Definition greatCircleLocation (p : Position.t) (azimuth pathLength : Q)
  : Location.t :=
  if Qeq_bool pathLength 0 then
    Location.mk (Position.latitude p) (Position.longitude p)
  else
    let degrees := pathLength * RADIANS_TO_DEGREES in
    Location.mk
      (Position.latitude p + degrees * cosDegrees azimuth)
      (Position.longitude p + degrees * sinDegrees azimuth).

(** Modelled from the spec: the clock behind [Date.now()]; read [n] is
    [step] milliseconds after read [n - 1]. *)
Definition timeline (origin step : Q) (n : nat) : Q :=
  origin + step * inject_Z (Z.of_nat n).

(** Modelled from the spec: the realm of a page that loads the library
    through [define]: the global scope holds the built-ins the module uses
    and nothing of the library. *)
Definition realm (origin step : Q) : Realm :=
  mkRealm greatCircleDistance greatCircleAzimuth greatCircleLocation
          distanceTo (timeline origin step)
          ["Date"; "Math"; "setTimeout"; "define"]%string.

(** A fresh animator object on the WorldWindow [w], before any [goTo]. *)
Definition animator (w : WorldWindow Camera.t) : GoToAnimator Camera.t :=
  mkGoToAnimator w 20 3000 false None
    (Position.mk 0 0 0) (Position.mk 0 0 0) 0 0 None 0 0.

(** The WorldWindow of the runs below: a pixel is 1/2500 of the distance
    wide, the canvas is 1000 pixels wide. *)
Definition window : WorldWindow Camera.t := worldWindow (1 # 2500) 1000.

(** The page the runs below execute in: the clock reads 1700000000000 first
    and 5 ms more at each read. *)
Definition page : Realm := realm 1700000000000 5.

(** The viewer looking from [camera], with a fresh animator. *)
Definition viewing (camera : Camera.t) : State Camera.t :=
  mkState (animator window) camera 0.

(** The [goTo] call of the runs below, with completion callback 7. *)
Definition call (position : PositionArg) (camera : Camera.t)
  : Completion unit * State Camera.t * list Event :=
  goTo page (Some position) (Some 7%nat) (viewing camera).

(** The state [goTo] leaves. *)
Definition started (position : PositionArg) (camera : Camera.t)
  : State Camera.t :=
  snd (fst (call position camera)).

(** From 1000 km above (0, 0) to the antipode (0, 180): a long move, with a
    rise to the chord distance. *)
Definition risingRun : State Camera.t :=
  started (mkPositionArg 0 180 None) (Camera.mk 0 0 1000000 0 0 0).

(** From 1000 km above (0, 0) to (0, 1): a local move. *)
Definition settlingRun : State Camera.t :=
  started (mkPositionArg 0 1 None) (Camera.mk 0 0 1000000 0 0 0).

(** The local move, after the user has dragged the view to (0, 1/2) before
    the first tick. *)
Definition aheadRun : State Camera.t :=
  mkState (this settlingRun) (Camera.mk 0 (1 # 2) 1000000 0 0 0)
          (clockReads settlingRun).

(** From 1000 km above (0, 0) to the same location, looking at a point
    500 km up: the camera climbs and does not pan. *)
Definition climbRun : State Camera.t :=
  started (mkPositionArg 0 0 (Some 500000)) (Camera.mk 0 0 1000000 0 0 0).

(** From 20000 km above (0, 0) to the antipode (0, 180): a long move that
    starts above the chord distance. *)
Definition highCamera : Camera.t := Camera.mk 0 0 20000000 0 0 0.
Definition highRun : State Camera.t :=
  started (mkPositionArg 0 180 None) highCamera.

(** The state after a call of [cancel]. *)
Definition cancelNow (s : State Camera.t) : State Camera.t :=
  snd (fst (cancel s)).

(** The position of a camera. *)
Definition positionOf (camera : Camera.t) : Position.t :=
  Position.mk (Camera.latitude camera) (Camera.longitude camera)
              (Camera.altitude camera).

(** The state [s] as it is after [reads] readings of the clock. *)
Definition later (s : State Camera.t) (reads : nat) : State Camera.t :=
  mkState (this s) (navigator s) reads.

(** The state [s] after the view has been moved to [camera]. *)
Definition moved (s : State Camera.t) (camera : Camera.t) : State Camera.t :=
  mkState (this s) camera (clockReads s).

(** Two [goTo] calls in a row from 1000 km above (0, 0), the first to
    (0, 1/1000) with callback 1, the second to (0, 2/1000) with callback 2
    before any tick of the first, then four firings of the timers. *)
Definition twoCalls : list (Occurrence Camera.t) :=
  [Calls (goTo page (Some (mkPositionArg 0 (1 # 1000) None)) (Some 1%nat));
   Calls (goTo page (Some (mkPositionArg 0 (2 # 1000) None)) (Some 2%nat));
   Fires; Fires; Fires; Fires].

End Host.

(** Two animator objects hold the same run: [goTo] has left the same
    positions, times and velocities in both. *)
Definition sameRun {Nav : Type} (a b : GoToAnimator Nav) : Prop :=
  wwd a = wwd b
  /\ targetPosition a = targetPosition b
  /\ startPosition a = startPosition b
  /\ startTime a = startTime b
  /\ maxAltitude a = maxAltitude b
  /\ panVelocity a = panVelocity b
  /\ rangeVelocity a = rangeVelocity b.

(** Nothing happens between the firings of [n] ticks. *)
Definition undisturbed {Nav : Type} (n : nat) : list (State Nav -> State Nav) :=
  List.repeat (fun s => s) n.

(** * Properties *)

(** ** The numeric tests and the event counts *)

Lemma Qlt_bool_iff (a b : Q) : Qlt_bool a b = true <-> a < b.
Proof.
  unfold Qlt_bool. rewrite negb_true_iff. split; intro H.
  - apply Qnot_le_lt. intro L. apply Qle_bool_iff in L. congruence.
  - destruct (Qle_bool b a) eqn:E; [|reflexivity].
    apply Qle_bool_iff in E. lra.
Qed.

Lemma Qlt_bool_false_iff (a b : Q) : Qlt_bool a b = false <-> b <= a.
Proof.
  unfold Qlt_bool. rewrite negb_false_iff. apply Qle_bool_iff.
Qed.

Lemma Qle_bool_false_iff (a b : Q) : Qle_bool a b = false <-> b < a.
Proof.
  rewrite <- Qlt_bool_iff. unfold Qlt_bool.
  destruct (Qle_bool a b); simpl; intuition congruence.
Qed.

Lemma count_app {A : Type} (p : A -> bool) (l1 l2 : list A) :
  count p (l1 ++ l2) = (count p l1 + count p l2)%nat.
Proof. unfold count. rewrite filter_app, length_app. reflexivity. Qed.


Section Properties.

Variable Nav : Type.
Variable realm : Realm.

(** Unfolds one call of the animator down to the host operations. *)
Ltac run :=
  cbv beta iota zeta delta
    [goTo updateRange updateLocation update timerCallback cancel
     GoToAnimator_constructor getTargetPosition throwArgumentError
     Logger_logMessage setTimeout bind ret throw emit getThis assign Date_now
     navigator_getAsCamera navigator_setAsCamera navigator_getAsLookAt
     navigator_pixelSizeAtDistance
     this navigator clockReads].

Ltac run_in H :=
  cbv beta iota zeta delta
    [goTo updateRange updateLocation update timerCallback cancel
     GoToAnimator_constructor getTargetPosition throwArgumentError
     Logger_logMessage setTimeout bind ret throw emit getThis assign Date_now
     navigator_getAsCamera navigator_setAsCamera navigator_getAsLookAt
     navigator_pixelSizeAtDistance
     this navigator clockReads] in H.

Lemma updateRange_rising (currentPosition : Position.t) (s : State Nav) :
  falsy (maxAltitudeReachedTime (this s)) = true ->
  let a := this s in
  let camera := getAsCamera (wwd a) (navigator s) in
  let nextRange :=
    Qmin (Position.altitude (startPosition a)
          + rangeVelocity a * (timeline realm (clockReads s) - startTime a))
         (maxAltitude a) in
  updateRange realm currentPosition s =
    (Normal true,
     (if Qlt_bool (Qabs (Camera.altitude camera - nextRange)) 1 then
        mkState
          (set_maxAltitudeReachedTime
             (Some (timeline realm (S (clockReads s)))) a)
          (setAsCamera (wwd a) (Camera.set_altitude camera nextRange)
                       (navigator s))
          (S (S (clockReads s)))
      else
        mkState a
          (setAsCamera (wwd a) (Camera.set_altitude camera nextRange)
                       (navigator s))
          (S (clockReads s))),
     [SetAsCamera (Camera.set_altitude camera nextRange)]).
Proof.
  intros H. destruct s as [a nav n]. simpl in H.
  run. rewrite H.
  destruct (Qlt_bool _ 1); reflexivity.
Qed.

Lemma updateRange_settling (currentPosition : Position.t) (s : State Nav) :
  falsy (maxAltitudeReachedTime (this s)) = false ->
  let a := this s in
  let camera := getAsCamera (wwd a) (navigator s) in
  let elapsedTime :=
    timeline realm (clockReads s) - toNumber (maxAltitudeReachedTime a) in
  let nextRange :=
    if Qlt_bool (Position.altitude (targetPosition a)) (maxAltitude a) then
      Qmax (maxAltitude a - rangeVelocity a * elapsedTime)
           (Position.altitude (targetPosition a))
    else
      Qmin (maxAltitude a + rangeVelocity a * elapsedTime)
           (Position.altitude (targetPosition a)) in
  updateRange realm currentPosition s =
    (Normal (Qlt_bool 1 (Qabs (nextRange - Position.altitude (targetPosition a)))),
     mkState a
       (setAsCamera (wwd a) (Camera.set_altitude camera nextRange) (navigator s))
       (S (clockReads s)),
     [SetAsCamera (Camera.set_altitude camera nextRange)]).
Proof.
  intros H. destruct s as [a nav n]. simpl in H.
  run. rewrite H. reflexivity.
Qed.

Lemma updateLocation_run (currentPosition : Position.t) (s : State Nav) :
  let a := this s in
  let camera := getAsCamera (wwd a) (navigator s) in
  let elapsedTime := timeline realm (clockReads s) - startTime a in
  let nextDistance :=
    Qmin (panVelocity a * elapsedTime
          - greatCircleDistance realm (startPosition a) currentPosition)
         (greatCircleDistance realm currentPosition (targetPosition a)) in
  let nextLocation :=
    greatCircleLocation realm currentPosition
      (greatCircleAzimuth realm currentPosition (targetPosition a))
      nextDistance in
  let written :=
    Camera.set_longitude
      (Camera.set_latitude camera (Location.latitude nextLocation))
      (Location.longitude nextLocation) in
  updateLocation realm currentPosition s =
    (Normal (negb (if Qlt_bool 4000 elapsedTime then true
                   else Qlt_bool nextDistance (1 / equatorialRadius (wwd a)))),
     mkState a (setAsCamera (wwd a) written (navigator s)) (S (clockReads s)),
     [SetAsCamera written]).
Proof.
  destruct s as [a nav n]. reflexivity.
Qed.

(** ** The altitude sub-motion *)

(** C1.  One call of [updateRange] follows the two-phase profile.  While
    [maxAltitudeReachedTime] is unset it writes the altitude
    [min(start.altitude + rangeVelocity * elapsedSinceStart, maxAltitude)],
    records the next clock reading as [maxAltitudeReachedTime] exactly when
    the altitude it read is less than 1 meter from that value, and reports
    that the motion is still running.  Once [maxAltitudeReachedTime] holds a
    clock reading (a non-zero number), it writes
    [max(maxAltitude - rangeVelocity * elapsedSinceReached, target.altitude)]
    when [maxAltitude > target.altitude] and
    [min(maxAltitude + rangeVelocity * elapsedSinceReached, target.altitude)]
    otherwise, reports running if and only if the written altitude is more
    than 1 meter from [target.altitude], and the written altitude never
    passes [target.altitude]. *)
Theorem updateRange_two_phase_profile
  (currentPosition : Position.t) (s : State Nav) :
  let a := this s in
  let camera := getAsCamera (wwd a) (navigator s) in
  let target := Position.altitude (targetPosition a) in
  let now := timeline realm (clockReads s) in
  (maxAltitudeReachedTime a = None ->
   let nextRange :=
     Qmin (Position.altitude (startPosition a)
           + rangeVelocity a * (now - startTime a))
          (maxAltitude a) in
   exists s' written,
     updateRange realm currentPosition s
       = (Normal true, s', [SetAsCamera written])
     /\ Camera.altitude written = nextRange
     /\ (Qabs (Camera.altitude camera - nextRange) < 1 ->
         maxAltitudeReachedTime (this s')
           = Some (timeline realm (S (clockReads s))))
     /\ (1 <= Qabs (Camera.altitude camera - nextRange) ->
         maxAltitudeReachedTime (this s') = None))
  /\
  (forall reached : Q,
   maxAltitudeReachedTime a = Some reached -> ~ reached == 0 ->
   let elapsed := now - reached in
   exists s' running written,
     updateRange realm currentPosition s
       = (Normal running, s', [SetAsCamera written])
     /\ (target < maxAltitude a ->
         Camera.altitude written
           = Qmax (maxAltitude a - rangeVelocity a * elapsed) target)
     /\ (maxAltitude a <= target ->
         Camera.altitude written
           = Qmin (maxAltitude a + rangeVelocity a * elapsed) target)
     /\ (running = true <-> 1 < Qabs (Camera.altitude written - target))
     /\ (target < maxAltitude a -> target <= Camera.altitude written)
     /\ (maxAltitude a <= target -> Camera.altitude written <= target)
     /\ maxAltitudeReachedTime (this s') = Some reached).
Proof.
  intros a camera target now. split.
  - intros Hunset nextRange.
    assert (F : falsy (maxAltitudeReachedTime (this s)) = true)
      by (fold a; rewrite Hunset; reflexivity).
    rewrite (updateRange_rising currentPosition s F).
    fold a camera now nextRange.
    destruct (Qlt_bool (Qabs (Camera.altitude camera - nextRange)) 1) eqn:E.
    + do 2 eexists. split; [reflexivity|]. split; [reflexivity|].
      split; [reflexivity|].
      intro L. apply Qlt_bool_iff in E. lra.
    + do 2 eexists. split; [reflexivity|]. split; [reflexivity|].
      split.
      * intro L. apply Qlt_bool_iff in L. congruence.
      * intros _. exact Hunset.
  - intros reached Hset Hnz elapsed.
    assert (F : falsy (maxAltitudeReachedTime (this s)) = false).
    { fold a. rewrite Hset. simpl.
      destruct (Qeq_bool reached 0) eqn:E; [|reflexivity].
      apply Qeq_bool_iff in E. contradiction. }
    rewrite (updateRange_settling currentPosition s F).
    fold a camera target now. rewrite Hset. simpl toNumber. fold elapsed.
    do 3 eexists. split; [reflexivity|].
    simpl Camera.altitude.
    destruct (Qlt_bool target (maxAltitude a)) eqn:D.
    + apply Qlt_bool_iff in D.
      split; [reflexivity|]. split; [intro; lra|].
      split; [apply Qlt_bool_iff|].
      split; [intros _; apply Q.le_max_r|].
      split; [intro; lra|]. exact Hset.
    + apply Qlt_bool_false_iff in D.
      split; [intro; lra|]. split; [reflexivity|].
      split; [apply Qlt_bool_iff|].
      split; [intro; lra|].
      split; [intros _; apply Q.le_min_r|]. exact Hset.
Qed.

(** ** The pan sub-motion *)

(** C3.  One call of [updateLocation] computes
    [stepDistance = min(panVelocity * elapsedSinceStart - distanceTravelled,
    distanceRemaining)], writes the great-circle destination at bearing
    [azimuthToTarget] and distance [stepDistance] from the live position
    into the camera's latitude and longitude, and reports done exactly when
    [stepDistance < 1 / equatorialRadius] or the elapsed time since the
    start of the run exceeds 4000 ms. *)
Theorem updateLocation_step
  (currentPosition : Position.t) (s : State Nav) :
  let a := this s in
  let elapsed := timeline realm (clockReads s) - startTime a in
  let distanceTravelled :=
    greatCircleDistance realm (startPosition a) currentPosition in
  let distanceRemaining :=
    greatCircleDistance realm currentPosition (targetPosition a) in
  let azimuthToTarget :=
    greatCircleAzimuth realm currentPosition (targetPosition a) in
  let stepDistance :=
    Qmin (panVelocity a * elapsed - distanceTravelled) distanceRemaining in
  let destination :=
    greatCircleLocation realm currentPosition azimuthToTarget stepDistance in
  exists s' running written,
    updateLocation realm currentPosition s
      = (Normal running, s', [SetAsCamera written])
    /\ Camera.latitude written = Location.latitude destination
    /\ Camera.longitude written = Location.longitude destination
    /\ navigator s' = setAsCamera (wwd a) written (navigator s)
    /\ (running = false <->
        stepDistance < 1 / equatorialRadius (wwd a) \/ 4000 < elapsed).
Proof.
  intros a elapsed travelled remaining azimuth stepDistance destination.
  rewrite updateLocation_run.
  fold a elapsed travelled remaining azimuth stepDistance destination.
  do 3 eexists. split; [reflexivity|].
  split; [reflexivity|]. split; [reflexivity|]. split; [reflexivity|].
  rewrite negb_false_iff.
  destruct (Qlt_bool 4000 elapsed) eqn:E.
  - apply Qlt_bool_iff in E. tauto.
  - apply Qlt_bool_false_iff in E. rewrite Qlt_bool_iff.
    split; [tauto|]. intros [H|H]; [exact H|lra].
Qed.

(** C10.  Each sub-motion touches only its own camera fields: the camera
    [updateRange] hands to the navigator is the one it read with the
    altitude replaced, and the camera [updateLocation] hands to the
    navigator is the one it read with the latitude and the longitude
    replaced. *)
Theorem sub_motions_write_own_fields
  (currentPosition : Position.t) (s : State Nav) :
  let camera := getAsCamera (wwd (this s)) (navigator s) in
  (exists s' running written,
     updateRange realm currentPosition s
       = (Normal running, s', [SetAsCamera written])
     /\ navigator s' = setAsCamera (wwd (this s)) written (navigator s)
     /\ written = Camera.set_altitude camera (Camera.altitude written))
  /\
  (exists s' running written,
     updateLocation realm currentPosition s
       = (Normal running, s', [SetAsCamera written])
     /\ navigator s' = setAsCamera (wwd (this s)) written (navigator s)
     /\ written
        = Camera.set_longitude
            (Camera.set_latitude camera (Camera.latitude written))
            (Camera.longitude written)).
Proof.
  intros camera. split.
  - destruct (falsy (maxAltitudeReachedTime (this s))) eqn:F.
    + rewrite (updateRange_rising currentPosition s F). fold camera.
      destruct (Qlt_bool _ 1); do 3 eexists;
        (split; [reflexivity|]); split; reflexivity.
    + rewrite (updateRange_settling currentPosition s F). fold camera.
      do 3 eexists. split; [reflexivity|]. split; reflexivity.
  - rewrite updateLocation_run. fold camera.
    do 3 eexists. split; [reflexivity|]. split; reflexivity.
Qed.

(** ** Ticks *)

(** A tick that is not cancelled writes the camera twice and asks for one
    redraw; it leaves the cancellation flag, the callback and the tick
    interval as they are. *)
Lemma update_events (s : State Nav) :
  exists running s' w1 w2,
    update realm s = (Normal running, s', [SetAsCamera w1; SetAsCamera w2; Redraw])
    /\ cancelled (this s') = cancelled (this s)
    /\ completionCallback (this s') = completionCallback (this s)
    /\ animationFrequency (this s') = animationFrequency (this s).
Proof.
  destruct s as [a nav n].
  destruct (falsy (maxAltitudeReachedTime a)) eqn:F.
  - run. rewrite F.
    destruct (Qlt_bool _ 1); do 4 eexists; (split; [reflexivity|]);
      destruct a; simpl; tauto.
  - run. rewrite F.
    do 4 eexists. split; [reflexivity|]. tauto.
Qed.

(** What one firing of the timer emits: either it registers the next firing
    and completes nothing, or it registers nothing and completes at most
    once. *)
Lemma timerCallback_events (s : State Nav) :
  forall r s' events, timerCallback realm s = (r, s', events) ->
    (existsb isSetTimeout events = true /\ count isCompleted events = 0%nat)
    \/ (existsb isSetTimeout events = false
        /\ (count isCompleted events <= 1)%nat).
Proof.
  intros r s' events H.
  unfold timerCallback, bind, getThis in H.
  destruct (cancelled (this s)).
  - destruct (completionCallback (this s));
      inversion H; subst; right; simpl; split; auto.
  - destruct (update_events s) as (running & s1 & w1 & w2 & E & _).
    rewrite E in H.
    destruct running.
    + inversion H; subst. left. split; reflexivity.
    + destruct (completionCallback (this s1));
        inversion H; subst; right; unfold count; simpl; split; auto.
Qed.

Lemma tickSequence_completes_at_most_once
  (interference : list (State Nav -> State Nav)) :
  forall s, (count isCompleted (tickSequence realm interference s) <= 1)%nat.
Proof.
  induction interference as [|before rest IH]; intros s; simpl.
  - unfold count. simpl. lia.
  - destruct (timerCallback realm (before s)) as [[r s'] events] eqn:E.
    destruct (timerCallback_events _ _ _ _ E) as [[T C]|[T C]];
      rewrite T, count_app.
    + rewrite C. apply IH.
    + unfold count at 2. simpl. lia.
Qed.

(** C6.  [cancel] only sets the cancellation flag: it emits nothing, and a
    second call changes nothing more.  A firing of the timer that finds the
    flag set leaves the animator, the view and the clock as they are, calls
    the completion callback once if there is one, registers no further
    firing, and so ends the tick sequence. *)
Theorem cancel_ends_the_run (s : State Nav) :
  cancel s
    = (Normal tt,
       mkState (set_cancelled true (this s)) (navigator s) (clockReads s), [])
  /\ (forall r s1 events, cancel s = (r, s1, events) ->
        cancel s1 = (Normal tt, s1, []))
  /\ (cancelled (this s) = true ->
      timerCallback realm s
        = (Normal tt, s,
           match completionCallback (this s) with
           | Some callback => [Completed callback]
           | None => []
           end))
  /\ (forall before rest,
        cancelled (this (before s)) = true ->
        tickSequence realm (before :: rest) s
          = match completionCallback (this (before s)) with
            | Some callback => [Completed callback]
            | None => []
            end).
Proof.
  assert (T : forall s0 : State Nav, cancelled (this s0) = true ->
      timerCallback realm s0
        = (Normal tt, s0,
           match completionCallback (this s0) with
           | Some callback => [Completed callback]
           | None => []
           end)).
  { intros s0 H. unfold timerCallback, bind, getThis. rewrite H.
    destruct (completionCallback (this s0)); reflexivity. }
  split; [reflexivity|]. split.
  - intros r s1 events H. inversion H; subst. reflexivity.
  - split; [apply T|].
    intros before rest H. simpl. rewrite (T _ H).
    destruct (completionCallback (this (before s))); reflexivity.
Qed.

(** ** [goTo] *)

(** What a [goTo] call with a position leaves in the animator. *)
Lemma goTo_fields (p : PositionArg) (callback : option Callback) (s : State Nav) :
  forall r s' events, goTo realm (Some p) callback s = (r, s', events) ->
  let a := this s in
  let a' := this s' in
  let camera := getAsCamera (wwd a) (navigator s) in
  let start := startPosition a' in
  let target := targetPosition a' in
  let panDistance := greatCircleDistance realm start target in
  let chord :=
    distanceTo realm
      (computePointFromLocation (wwd a) (Position.latitude start)
                                (Position.longitude start))
      (computePointFromLocation (wwd a) (Position.latitude target)
                                (Position.longitude target)) in
  let viewportSize :=
    viewportSizeOf (wwd a) (navigator s) (Position.altitude start) in
  let rangeDistance := rangeDistanceOf (maxAltitude a') start target in
  let animationDistance :=
    animationDistanceOf panDistance rangeDistance (equatorialRadius (wwd a)) in
  let duration :=
    animationDurationOf (travelTime a) animationDistance viewportSize in
  r = Normal tt
  /\ wwd a' = wwd a /\ travelTime a' = travelTime a
  /\ navigator s' = navigator s
  /\ start = Position.mk (Camera.latitude camera) (Camera.longitude camera)
                         (Camera.altitude camera)
  /\ maxAltitude a'
     = (if Qle_bool panDistance (2 * viewportSize)
        then Position.altitude start else chord)
  /\ maxAltitudeReachedTime a'
     = (if Qle_bool (maxAltitude a') (Position.altitude start)
        then Some (timeline realm (S (clockReads s))) else None)
  /\ cancelled a' = false /\ completionCallback a' = callback
  /\ ((Qeq_bool animationDistance 0 = true /\ events = [])
      \/ (Qeq_bool animationDistance 0 = false
          /\ events = [SetTimeout (animationFrequency a)]
          /\ panVelocity a' = panDistance / duration
          /\ rangeVelocity a' = rangeDistance / duration)).
Proof.
  intros r s' events H. destruct s as [a nav n]. destruct a.
  run_in H.
  cbv beta iota zeta delta
    [wwd animationFrequency travelTime cancelled completionCallback
     targetPosition startPosition startTime maxAltitude
     maxAltitudeReachedTime panVelocity rangeVelocity
     set_completionCallback set_cancelled set_targetPosition
     set_startPosition set_startTime set_maxAltitude
     set_maxAltitudeReachedTime set_panVelocity set_rangeVelocity
     Position.altitude Position.latitude Position.longitude] in H.
  unfold viewportSizeOf.
  repeat match type of H with
         | context [if ?b then _ else _] =>
             let E := fresh "E" in destruct b eqn:E
         end;
    inversion H; subst; clear H; simpl;
    repeat match goal with
           | E : ?b = _ |- context [?b] => rewrite E
           end;
    repeat split; auto.
Qed.

(** [goTo] itself completes nothing. *)
Lemma goTo_completes_nothing
  (position : option PositionArg) (callback : option Callback) (s : State Nav) :
  forall r s' events, goTo realm position callback s = (r, s', events) ->
    count isCompleted events = 0%nat.
Proof.
  intros r s' events H. destruct position as [p|].
  - pose proof (goTo_fields _ _ _ _ _ _ H) as F. cbv zeta in F.
    destruct F as (_ & _ & _ & _ & _ & _ & _ & _ & _ & [[_ ->]|(_ & -> & _)]);
      reflexivity.
  - unfold goTo, throwArgumentError in H.
    destruct (resolves realm "ArgumentError"); inversion H; reflexivity.
Qed.

(** One chain of ticks completes at most once: over a [goTo] call and the
    tick sequence of the timer it registers, whatever happens to the state
    between the ticks, the events contain at most one completion.  (A
    [goTo] among what happens registers a chain of its own, which lies
    outside this sequence: see [eventLoop].) *)
Theorem completion_at_most_once
  (position : option PositionArg) (callback : option Callback)
  (interference : list (State Nav -> State Nav)) (s : State Nav) :
  forall r s' events, goTo realm position callback s = (r, s', events) ->
    (count isCompleted (events ++ tickSequence realm interference s') <= 1)%nat.
Proof.
  intros r s' events H.
  rewrite count_app, (goTo_completes_nothing _ _ _ _ _ _ H).
  apply tickSequence_completes_at_most_once.
Qed.

Lemma Qabs_spec (x : Q) :
  (0 <= x /\ Qabs x == x) \/ (x < 0 /\ Qabs x == - x).
Proof.
  destruct (Qlt_le_dec x 0) as [L|L].
  - right. split; [exact L|]. apply Qabs_neg. lra.
  - left. split; [exact L|]. apply Qabs_pos. exact L.
Qed.

(** Replaces every [Qmax], [Qmin] and [Qabs] by a variable that satisfies
    its specification, then decides the linear problem that is left. *)
Ltac min_max_lra :=
  repeat match goal with
         | |- context [Qmax ?a ?b] =>
             pose proof (Q.max_spec a b);
             let m := fresh "m" in set (m := Qmax a b) in *; clearbody m
         | |- context [Qmin ?a ?b] =>
             pose proof (Q.min_spec a b);
             let m := fresh "m" in set (m := Qmin a b) in *; clearbody m
         | |- context [Qabs ?a] =>
             pose proof (Qabs_spec a);
             let m := fresh "m" in set (m := Qabs a) in *; clearbody m
         | H : context [Qmax ?a ?b] |- _ =>
             pose proof (Q.max_spec a b);
             let m := fresh "m" in set (m := Qmax a b) in *; clearbody m
         | H : context [Qmin ?a ?b] |- _ =>
             pose proof (Q.min_spec a b);
             let m := fresh "m" in set (m := Qmin a b) in *; clearbody m
         | H : context [Qabs ?a] |- _ =>
             pose proof (Qabs_spec a);
             let m := fresh "m" in set (m := Qabs a) in *; clearbody m
         end;
  repeat match goal with
         | H : _ \/ _ |- _ => destruct H
         | H : _ /\ _ |- _ => destruct H
         end;
  lra.

Lemma rangeDistanceOf_nonneg (m : Q) (start target : Position.t) :
  0 <= rangeDistanceOf m start target.
Proof.
  unfold rangeDistanceOf.
  destruct (Qlt_bool (Position.altitude start) m); min_max_lra.
Qed.

Lemma rangeDistanceOf_cases (m : Q) (start target : Position.t) :
  (Position.altitude start < m ->
   rangeDistanceOf m start target
     == (m - Position.altitude start) + Qabs (Position.altitude target - m))
  /\ (m <= Position.altitude start ->
      rangeDistanceOf m start target
        = Qabs (Position.altitude target - Position.altitude start)).
Proof.
  unfold rangeDistanceOf.
  destruct (Qlt_bool (Position.altitude start) m) eqn:E.
  - apply Qlt_bool_iff in E. split; intro L; [|lra].
    set (r := Qabs (Position.altitude target - m)). min_max_lra.
  - apply Qlt_bool_false_iff in E. split; intro L; [lra|reflexivity].
Qed.

Lemma animationDurationOf_ge_1 (travelTime distance viewportSize : Q) :
  1 <= animationDurationOf travelTime distance viewportSize.
Proof. unfold animationDurationOf. apply Q.le_max_l. Qed.

(** The duration of a move whose governing distance is at least twice the
    viewport is the travel time, and so is what the shrink rule gives. *)
Lemma animationDurationOf_shrink (travelTime distance viewportSize : Q) :
  0 < viewportSize -> 0 <= travelTime ->
  animationDurationOf travelTime distance viewportSize
    == Qmax 1 (Qmin travelTime (distance / viewportSize * travelTime)).
Proof.
  intros Hv Ht. unfold animationDurationOf.
  set (X := distance / viewportSize * travelTime).
  destruct (Qlt_bool distance (2 * viewportSize)) eqn:E.
  - min_max_lra.
  - apply Qlt_bool_false_iff in E.
    assert (K : 2 <= distance / viewportSize)
      by (apply Qle_shift_div_l; [exact Hv|exact E]).
    assert (P : 0 <= (distance / viewportSize - 1) * travelTime)
      by (apply Qmult_le_0_compat; lra).
    assert (Q1 : X == (distance / viewportSize - 1) * travelTime + travelTime)
      by (unfold X; ring).
    min_max_lra.
Qed.

Lemma animationDurationOf_long (travelTime distance viewportSize : Q) :
  2 * viewportSize <= distance ->
  animationDurationOf travelTime distance viewportSize = Qmax 1 travelTime.
Proof.
  intros H. unfold animationDurationOf.
  apply Qlt_bool_false_iff in H. rewrite H. reflexivity.
Qed.

(** C2.  For a [goTo] call that schedules ticks, on a globe of positive
    radius: a local move
    ([panDistance <= 2 * viewportSize]) pins [maxAltitude] to
    [start.altitude] and lasts
    [max(1, min(travelTime, distance / viewportSize * travelTime))]; a long
    move lasts [max(1, travelTime)]; [panVelocity] and [rangeVelocity] are
    [panDistance] and [rangeDistance] divided by that one duration, where
    [rangeDistance] is [(maxAltitude - start.altitude)
    + |target.altitude - maxAltitude|] when [maxAltitude > start.altitude]
    and [|target.altitude - start.altitude|] otherwise.  (The radius is
    positive because the governing distance divides by it, and the exact
    quotient agrees with the source only for a non-zero divisor.) *)
Theorem goTo_duration_and_velocities
  (p : PositionArg) (callback : option Callback) (s : State Nav) :
  forall r s' events, goTo realm (Some p) callback s = (r, s', events) ->
  existsb isSetTimeout events = true ->
  let a' := this s' in
  let start := startPosition a' in
  let target := targetPosition a' in
  let panDistance := greatCircleDistance realm start target in
  let viewportSize :=
    viewportSizeOf (wwd a') (navigator s') (Position.altitude start) in
  let rangeDistance := rangeDistanceOf (maxAltitude a') start target in
  let distance :=
    Qmax panDistance (rangeDistance / equatorialRadius (wwd a')) in
  let duration := animationDurationOf (travelTime a') distance viewportSize in
  0 < equatorialRadius (wwd a') ->
  (panDistance <= 2 * viewportSize ->
   maxAltitude a' = Position.altitude start)
  /\ (panDistance <= 2 * viewportSize ->
      0 < viewportSize -> 0 <= travelTime a' ->
      duration
        == Qmax 1 (Qmin (travelTime a')
                        (distance / viewportSize * travelTime a')))
  /\ (2 * viewportSize < panDistance -> duration = Qmax 1 (travelTime a'))
  /\ 1 <= duration
  /\ panVelocity a' = panDistance / duration
  /\ rangeVelocity a' = rangeDistance / duration
  /\ (Position.altitude start < maxAltitude a' ->
      rangeDistance
        == (maxAltitude a' - Position.altitude start)
           + Qabs (Position.altitude target - maxAltitude a'))
  /\ (maxAltitude a' <= Position.altitude start ->
      rangeDistance
        = Qabs (Position.altitude target - Position.altitude start)).
Proof.
  intros r s' events H Hticks.
  pose proof (goTo_fields _ _ _ _ _ _ H) as F. cbv zeta in F.
  destruct F as (_ & Hw & Ht & Hn & _ & Hmax & _ & _ & _ & Hv).
  intros a' start target panDistance viewportSize rangeDistance distance
         duration _.
  fold a' in Hw, Ht, Hmax, Hv. rewrite <- Hw, <- Ht, <- Hn in *.
  fold start target panDistance viewportSize rangeDistance in Hmax, Hv.
  unfold animationDistanceOf in Hv. fold distance duration in Hv.
  destruct Hv as [[_ ->]|(_ & _ & Hp & Hr)]; [discriminate|].
  split.
  { intros L. apply Qle_bool_iff in L. rewrite L in Hmax. exact Hmax. }
  split.
  { intros _ Hvp Htp. apply animationDurationOf_shrink; assumption. }
  split.
  { intros L. apply animationDurationOf_long.
    pose proof (Q.le_max_l panDistance
                  (rangeDistance / equatorialRadius (wwd a'))).
    fold distance in H0. lra. }
  split; [apply animationDurationOf_ge_1|].
  split; [exact Hp|]. split; [exact Hr|].
  apply rangeDistanceOf_cases.
Qed.

(** C5, as amended.  For a [goTo] call that schedules ticks, with a
    great-circle distance that is not negative: [panVelocity >= 0] and
    [rangeVelocity >= 0]; and [maxAltitude >= start.altitude] holds exactly
    when the move is local or the chord between the projected start and
    target points is at least [start.altitude]. *)
Theorem goTo_velocities_nonnegative
  (p : PositionArg) (callback : option Callback) (s : State Nav) :
  forall r s' events, goTo realm (Some p) callback s = (r, s', events) ->
  existsb isSetTimeout events = true ->
  let a' := this s' in
  let start := startPosition a' in
  let target := targetPosition a' in
  let panDistance := greatCircleDistance realm start target in
  let viewportSize :=
    viewportSizeOf (wwd a') (navigator s') (Position.altitude start) in
  let chord :=
    distanceTo realm
      (computePointFromLocation (wwd a') (Position.latitude start)
                                (Position.longitude start))
      (computePointFromLocation (wwd a') (Position.latitude target)
                                (Position.longitude target)) in
  0 <= panDistance ->
  0 <= panVelocity a'
  /\ 0 <= rangeVelocity a'
  /\ (Position.altitude start <= maxAltitude a'
      <-> panDistance <= 2 * viewportSize \/ Position.altitude start <= chord).
Proof.
  intros r s' events H Hticks.
  pose proof (goTo_fields _ _ _ _ _ _ H) as F. cbv zeta in F.
  destruct F as (_ & Hw & Ht & Hn & _ & Hmax & _ & _ & _ & Hv).
  intros a' start target panDistance viewportSize chord Hpan.
  fold a' in Hw, Ht, Hmax, Hv. rewrite <- Hw, <- Ht, <- Hn in *.
  fold start target panDistance viewportSize chord in Hmax, Hv.
  destruct Hv as [[_ ->]|(_ & _ & Hp & Hr)]; [discriminate|].
  rewrite Hp, Hr.
  match goal with
  | |- context [panDistance / ?d] =>
      assert (Hd : 0 < d)
        by (pose proof (animationDurationOf_ge_1 (travelTime a')
              (animationDistanceOf panDistance
                 (rangeDistanceOf (maxAltitude a') start target)
                 (equatorialRadius (wwd a')))
              viewportSize); lra)
  end.
  split; [apply Qle_shift_div_l; [exact Hd|lra]|].
  split.
  { apply Qle_shift_div_l; [exact Hd|].
    pose proof (rangeDistanceOf_nonneg (maxAltitude a') start target). lra. }
  rewrite Hmax.
  destruct (Qle_bool panDistance (2 * viewportSize)) eqn:E.
  - apply Qle_bool_iff in E. split; intro; [tauto|lra].
  - apply Qle_bool_false_iff in E. split; [tauto|].
    intros [L|L]; [lra|exact L].
Qed.

(** C7.  A [goTo] call whose resolved target equals the captured start
    (zero great-circle distance, equal altitudes), on a globe of positive
    radius and a viewport whose angular size is not negative, returns without registering a tick and
    without calling the completion callback: it emits nothing.  (The
    radius is positive because the governing distance divides by it.) *)
Theorem goTo_same_position
  (p : PositionArg) (callback : option Callback) (s : State Nav) :
  forall r s' events, goTo realm (Some p) callback s = (r, s', events) ->
  let a' := this s' in
  let start := startPosition a' in
  let target := targetPosition a' in
  greatCircleDistance realm start target == 0 ->
  Position.altitude target == Position.altitude start ->
  0 <= viewportSizeOf (wwd a') (navigator s') (Position.altitude start) ->
  0 < equatorialRadius (wwd a') ->
  r = Normal tt /\ events = [].
Proof.
  intros r s' events H.
  pose proof (goTo_fields _ _ _ _ _ _ H) as F. cbv zeta in F.
  destruct F as (Hr & Hw & Ht & Hn & _ & Hmax & _ & _ & _ & Hv).
  intros a' start target Hpan Halt Hvp _.
  fold a' in Hw, Ht, Hmax, Hv. rewrite <- Hw, <- Ht, <- Hn in *.
  fold start target in Hmax, Hv.
  split; [exact Hr|].
  destruct Hv as [[_ Hev]|(Hnz & _)]; [exact Hev|exfalso].
  assert (L : Qle_bool (greatCircleDistance realm start target)
                (2 * viewportSizeOf (wwd a') (navigator s')
                       (Position.altitude start)) = true)
    by (apply Qle_bool_iff; lra).
  rewrite L in Hmax. rewrite Hmax in Hnz.
  assert (Hrange : rangeDistanceOf (Position.altitude start) start target == 0).
  { destruct (rangeDistanceOf_cases (Position.altitude start) start target)
      as [_ C].
    rewrite C by lra. min_max_lra. }
  assert (Hdiv : rangeDistanceOf (Position.altitude start) start target
                 / equatorialRadius (wwd a') == 0).
  { rewrite Hrange. unfold Qdiv. ring. }
  assert (Hzero : animationDistanceOf (greatCircleDistance realm start target)
                    (rangeDistanceOf (Position.altitude start) start target)
                    (equatorialRadius (wwd a')) == 0).
  { unfold animationDistanceOf.
    set (q := rangeDistanceOf (Position.altitude start) start target
              / equatorialRadius (wwd a')) in *.
    min_max_lra. }
  apply Qeq_bool_iff in Hzero. congruence.
Qed.

(** A missing argument ends the constructor and [goTo] with a throw before
    any write: an ArgumentError where that identifier resolves, the
    ReferenceError of its lookup where it does not. *)
Lemma missing_argument_no_write (callback : option Callback) (s : State Nav) :
  (exists e events,
     GoToAnimator_constructor realm None s = (Throw e, s, events)
     /\ (resolves realm "ArgumentError" = true ->
         exists text, e = ArgumentError text /\ events = [Logged text])
     /\ (resolves realm "ArgumentError" = false ->
         e = ReferenceError "ArgumentError" /\ events = []))
  /\
  (exists e events,
     goTo realm None callback s = (Throw e, s, events)
     /\ (resolves realm "ArgumentError" = true ->
         exists text, e = ArgumentError text /\ events = [Logged text])
     /\ (resolves realm "ArgumentError" = false ->
         e = ReferenceError "ArgumentError" /\ events = [])).
Proof.
  unfold GoToAnimator_constructor, goTo, throwArgumentError,
    Logger_logMessage, bind, emit, ret, throw.
  destruct (resolves realm "ArgumentError"); split;
    do 2 eexists; (split; [reflexivity|]); split; intro H;
    try discriminate; eauto.
Qed.

(** ** The whole tick, and what [goTo] captures *)

Lemma updateRange_shape (currentPosition : Position.t) (s : State Nav) :
  exists running s' written,
    updateRange realm currentPosition s
      = (Normal running, s', [SetAsCamera written])
    /\ navigator s' = setAsCamera (wwd (this s)) written (navigator s)
    /\ written
       = Camera.set_altitude (getAsCamera (wwd (this s)) (navigator s))
                             (Camera.altitude written)
    /\ sameRun (this s') (this s)
    /\ cancelled (this s') = cancelled (this s)
    /\ completionCallback (this s') = completionCallback (this s)
    /\ animationFrequency (this s') = animationFrequency (this s).
Proof.
  destruct (falsy (maxAltitudeReachedTime (this s))) eqn:F.
  - rewrite (updateRange_rising currentPosition s F).
    destruct (Qlt_bool _ 1); do 3 eexists;
      (split; [reflexivity|]); (split; [reflexivity|]);
      (split; [reflexivity|]); unfold sameRun; destruct s as [a nav n];
      destruct a; simpl; tauto.
  - rewrite (updateRange_settling currentPosition s F).
    do 3 eexists. split; [reflexivity|]. split; [reflexivity|].
    split; [reflexivity|]. unfold sameRun. simpl. tauto.
Qed.

(** X1.  One tick runs the altitude sub-motion, then the pan sub-motion on
    the state the first one leaves, both on the position read at the start
    of the tick; it asks for the redraw after the two camera writes and goes
    on when either sub-motion is still running. *)
Theorem update_runs_both_sub_motions (s : State Nav) :
  let camera := getAsCamera (wwd (this s)) (navigator s) in
  let currentPosition :=
    Position.mk (Camera.latitude camera) (Camera.longitude camera)
                (Camera.altitude camera) in
  exists r1 s1 w1 r2 s2 w2,
    updateRange realm currentPosition s = (Normal r1, s1, [SetAsCamera w1])
    /\ updateLocation realm currentPosition s1
       = (Normal r2, s2, [SetAsCamera w2])
    /\ update realm s
       = (Normal (r2 || r1), s2, [SetAsCamera w1; SetAsCamera w2; Redraw]).
Proof.
  intros camera currentPosition.
  destruct (updateRange_shape currentPosition s)
    as (r1 & s1 & w1 & E1 & _).
  pose proof (updateLocation_run currentPosition s1) as E2. cbv zeta in E2.
  do 6 eexists. split; [exact E1|]. split; [exact E2|].
  unfold update, bind, navigator_getAsCamera, emit, ret.
  fold camera. fold currentPosition. rewrite E1, E2. reflexivity.
Qed.

(** X2.  On a navigator that gives back the camera it was last given, the
    camera a tick leaves has the altitude of the altitude sub-motion and the
    latitude and longitude of the pan sub-motion: the second write does not
    undo the first, and heading, tilt and roll are those the tick found. *)
Theorem update_leaves_both_writes (s : State Nav) :
  (forall c nav, getAsCamera (wwd (this s)) (setAsCamera (wwd (this s)) c nav)
                 = c) ->
  let camera := getAsCamera (wwd (this s)) (navigator s) in
  exists running s' w1 w2,
    update realm s
      = (Normal running, s', [SetAsCamera w1; SetAsCamera w2; Redraw])
    /\ getAsCamera (wwd (this s)) (navigator s') = w2
    /\ Camera.altitude w2 = Camera.altitude w1
    /\ Camera.heading w2 = Camera.heading camera
    /\ Camera.tilt w2 = Camera.tilt camera
    /\ Camera.roll w2 = Camera.roll camera.
Proof.
  intros Hstore camera.
  set (currentPosition :=
         Position.mk (Camera.latitude camera) (Camera.longitude camera)
                     (Camera.altitude camera)).
  destruct (updateRange_shape currentPosition s)
    as (r1 & s1 & w1 & E1 & N1 & W1 & (Hw & _) & _).
  pose proof (updateLocation_run currentPosition s1) as E2. cbv zeta in E2.
  do 4 eexists. split.
  - unfold update, bind, navigator_getAsCamera, emit, ret.
    fold camera. fold currentPosition. rewrite E1, E2. reflexivity.
  - simpl. rewrite Hw, N1, !Hstore. simpl.
    fold camera in W1. rewrite W1. simpl. tauto.
Qed.

Lemma getTargetPosition_run (p : PositionArg) (s : State Nav) :
  let lookAt := getAsLookAt (wwd (this s)) (navigator s) in
  let lookAt :=
    match arg_altitude p with
    | Some altitude => LookAt.set_altitude lookAt altitude
    | None => lookAt
    end in
  let lookAt :=
    LookAt.set_longitude (LookAt.set_latitude lookAt (arg_latitude p))
                         (arg_longitude p) in
  let resultCamera := lookAtToCamera (wwd (this s)) lookAt in
  getTargetPosition p s
    = (Normal (Position.mk (Camera.latitude resultCamera)
                           (Camera.longitude resultCamera)
                           (Camera.altitude resultCamera)),
       s, []).
Proof. destruct s as [a nav n]. reflexivity. Qed.

(** X3.  [getTargetPosition] changes nothing and emits nothing, and the
    target it resolves depends on the current view only through the range,
    heading, tilt and roll of its look-at (and through the look-at altitude
    when the requested position has none): two views that agree on these
    resolve the same target, wherever they look. *)
Theorem getTargetPosition_keeps_the_framing
  (p : PositionArg) (s1 s2 : State Nav) :
  let l1 := getAsLookAt (wwd (this s1)) (navigator s1) in
  let l2 := getAsLookAt (wwd (this s2)) (navigator s2) in
  wwd (this s1) = wwd (this s2) ->
  LookAt.range l1 = LookAt.range l2 ->
  LookAt.heading l1 = LookAt.heading l2 ->
  LookAt.tilt l1 = LookAt.tilt l2 ->
  LookAt.roll l1 = LookAt.roll l2 ->
  (arg_altitude p = None -> LookAt.altitude l1 = LookAt.altitude l2) ->
  exists target,
    getTargetPosition p s1 = (Normal target, s1, [])
    /\ getTargetPosition p s2 = (Normal target, s2, []).
Proof.
  intros l1 l2 Hw Hrange Hheading Htilt Hroll Haltitude.
  rewrite !getTargetPosition_run. fold l1 l2. rewrite <- Hw.
  eexists. split; [reflexivity|].
  destruct l1 as [lat1 lon1 alt1 range1 heading1 tilt1 roll1].
  destruct l2 as [lat2 lon2 alt2 range2 heading2 tilt2 roll2].
  simpl in *. subst.
  destruct (arg_altitude p); simpl.
  - reflexivity.
  - rewrite (Haltitude eq_refl). reflexivity.
Qed.

(** What a [goTo] call with a position captures, beside [goTo_fields]. *)
Lemma goTo_captured (p : PositionArg) (callback : option Callback) (s : State Nav) :
  forall r s' events, goTo realm (Some p) callback s = (r, s', events) ->
  animationFrequency (this s') = animationFrequency (this s)
  /\ startTime (this s') = timeline realm (clockReads s)
  /\ getTargetPosition p s = (Normal (targetPosition (this s')), s, [])
  /\ (clockReads s' = S (clockReads s) \/ clockReads s' = S (S (clockReads s))).
Proof.
  intros r s' events H. rewrite getTargetPosition_run.
  destruct s as [a nav n]. destruct a.
  run_in H.
  cbv beta iota zeta delta
    [wwd animationFrequency travelTime cancelled completionCallback
     targetPosition startPosition startTime maxAltitude
     maxAltitudeReachedTime panVelocity rangeVelocity
     set_completionCallback set_cancelled set_targetPosition
     set_startPosition set_startTime set_maxAltitude
     set_maxAltitudeReachedTime set_panVelocity set_rangeVelocity
     Position.altitude Position.latitude Position.longitude] in H.
  repeat match type of H with
         | context [if ?b then _ else _] =>
             let E := fresh "E" in destruct b eqn:E
         end;
    inversion H; subst; clear H; simpl; repeat split; auto.
Qed.

(** X4.  A [goTo] call with a position never moves the camera: it leaves
    the view as it is and emits at most the registration of one tick.  It
    always takes over the animator: the cancellation flag is cleared, the
    callback is replaced by the one given (a callback stored before is
    dropped without being called), the start is the live camera position
    and the start time the clock reading, also when the call returns without
    registering a tick. *)
Theorem goTo_takes_over_the_animator
  (p : PositionArg) (callback : option Callback) (s : State Nav) :
  forall r s' events, goTo realm (Some p) callback s = (r, s', events) ->
  let camera := getAsCamera (wwd (this s)) (navigator s) in
  navigator s' = navigator s
  /\ (events = [] \/ events = [SetTimeout (animationFrequency (this s))])
  /\ cancelled (this s') = false
  /\ completionCallback (this s') = callback
  /\ startPosition (this s')
     = Position.mk (Camera.latitude camera) (Camera.longitude camera)
                   (Camera.altitude camera)
  /\ startTime (this s') = timeline realm (clockReads s)
  /\ wwd (this s') = wwd (this s)
  /\ animationFrequency (this s') = animationFrequency (this s)
  /\ travelTime (this s') = travelTime (this s).
Proof.
  intros r s' events H camera.
  pose proof (goTo_fields _ _ _ _ _ _ H) as F. cbv zeta in F.
  destruct F as (_ & Hw & Ht & Hn & Hs & _ & _ & Hc & Hcb & Hv).
  destruct (goTo_captured _ _ _ _ _ _ H) as (Hf & Hst & _).
  repeat split; try assumption.
  destruct Hv as [[_ ->]|(_ & -> & _)]; auto.
Qed.

Lemma rangeDistanceOf_pos (m : Q) (start target : Position.t) :
  ~ Position.altitude target == Position.altitude start ->
  0 < rangeDistanceOf m start target.
Proof.
  intros H. unfold rangeDistanceOf.
  destruct (Qlt_bool (Position.altitude start) m) eqn:E.
  - apply Qlt_bool_iff in E. min_max_lra.
  - destruct (Q_dec (Position.altitude target) (Position.altitude start))
      as [[L|G]|Z]; [| |contradiction]; min_max_lra.
Qed.

(** X5.  On a globe of positive radius, with a great-circle distance that
    is not negative: a [goTo] call whose resolved target differs from the
    captured start, in great-circle distance or in altitude, registers
    exactly one tick, after the animator's tick interval. *)
Theorem goTo_schedules_when_target_differs
  (p : PositionArg) (callback : option Callback) (s : State Nav) :
  forall r s' events, goTo realm (Some p) callback s = (r, s', events) ->
  let a' := this s' in
  let start := startPosition a' in
  let target := targetPosition a' in
  0 < equatorialRadius (wwd a') ->
  0 <= greatCircleDistance realm start target ->
  (~ greatCircleDistance realm start target == 0
   \/ ~ Position.altitude target == Position.altitude start) ->
  events = [SetTimeout (animationFrequency (this s))].
Proof.
  intros r s' events H.
  pose proof (goTo_fields _ _ _ _ _ _ H) as F. cbv zeta in F.
  destruct F as (_ & Hw & _ & _ & _ & _ & _ & _ & _ & Hv).
  intros a' start target Hradius Hpan Hdiffers.
  fold a' in Hw, Hv. rewrite <- Hw in *. fold start target in Hv.
  destruct Hv as [[Hzero _]|(_ & Hev & _)]; [exfalso|exact Hev].
  apply Qeq_bool_iff in Hzero. unfold animationDistanceOf in Hzero.
  set (rd := rangeDistanceOf (maxAltitude a') start target) in *.
  assert (Hrd : 0 <= rd) by apply rangeDistanceOf_nonneg.
  assert (Hq : 0 <= rd / equatorialRadius (wwd a'))
    by (apply Qle_shift_div_l; [exact Hradius|lra]).
  destruct Hdiffers as [D|D].
  - set (q := rd / equatorialRadius (wwd a')) in *.
    assert (0 < greatCircleDistance realm start target).
    { destruct (Q_dec (greatCircleDistance realm start target) 0)
        as [[L|G]|Z]; [lra|exact G|contradiction]. }
    min_max_lra.
  - assert (Hpos : 0 < rd) by (apply rangeDistanceOf_pos; exact D).
    assert (0 < rd / equatorialRadius (wwd a'))
      by (apply Qlt_shift_div_l; [exact Hradius|lra]).
    set (q := rd / equatorialRadius (wwd a')) in *.
    min_max_lra.
Qed.

Lemma animationDurationOf_le (travelTime distance viewportSize : Q) :
  animationDurationOf travelTime distance viewportSize <= Qmax 1 travelTime.
Proof.
  unfold animationDurationOf.
  set (X := distance / viewportSize * travelTime).
  destruct (Qlt_bool distance (2 * viewportSize)); min_max_lra.
Qed.

(** X6.  A [goTo] call that schedules ticks plans both sub-motions over
    one duration, never shorter than 1 ms and never longer than
    [max(1, travelTime)]: [panVelocity] is the great-circle distance and
    [rangeVelocity] the range distance, each divided by that duration. *)
Theorem goTo_yokes_both_motions
  (p : PositionArg) (callback : option Callback) (s : State Nav) :
  forall r s' events, goTo realm (Some p) callback s = (r, s', events) ->
  existsb isSetTimeout events = true ->
  let a' := this s' in
  let start := startPosition a' in
  let target := targetPosition a' in
  exists duration : Q,
    1 <= duration /\ duration <= Qmax 1 (travelTime a')
    /\ panVelocity a' = greatCircleDistance realm start target / duration
    /\ rangeVelocity a'
       = rangeDistanceOf (maxAltitude a') start target / duration.
Proof.
  intros r s' events H Hticks.
  pose proof (goTo_fields _ _ _ _ _ _ H) as F. cbv zeta in F.
  destruct F as (_ & _ & Ht & _ & _ & _ & _ & _ & _ & Hv).
  intros a' start target. fold a' in Ht, Hv. rewrite <- Ht in *.
  fold start target in Hv.
  destruct Hv as [[_ ->]|(_ & _ & Hp & Hr)]; [discriminate|].
  match type of Hp with
  | _ = _ / ?d => exists d
  end.
  split; [apply animationDurationOf_ge_1|].
  split; [apply animationDurationOf_le|].
  split; [exact Hp|exact Hr].
Qed.

(** X7.  The phase a run starts in: [goTo] leaves [maxAltitudeReachedTime]
    unset exactly when the peak lies above the start altitude, and otherwise
    sets it to the clock reading it takes then; so a local move, whose peak
    is the start altitude, has no rising phase. *)
Theorem goTo_starts_in_the_right_phase
  (p : PositionArg) (callback : option Callback) (s : State Nav) :
  forall r s' events, goTo realm (Some p) callback s = (r, s', events) ->
  let a' := this s' in
  let start := startPosition a' in
  let target := targetPosition a' in
  let viewportSize :=
    viewportSizeOf (wwd a') (navigator s') (Position.altitude start) in
  (Position.altitude start < maxAltitude a' ->
   maxAltitudeReachedTime a' = None)
  /\ (maxAltitude a' <= Position.altitude start ->
      maxAltitudeReachedTime a' = Some (timeline realm (S (clockReads s))))
  /\ (greatCircleDistance realm start target <= 2 * viewportSize ->
      maxAltitudeReachedTime a' = Some (timeline realm (S (clockReads s)))).
Proof.
  intros r s' events H.
  pose proof (goTo_fields _ _ _ _ _ _ H) as F. cbv zeta in F.
  destruct F as (_ & Hw & _ & Hn & _ & Hmax & Hreached & _).
  intros a' start target viewportSize.
  fold a' in Hw, Hmax, Hreached. rewrite <- Hw, <- Hn in *.
  fold start target viewportSize in Hmax, Hreached.
  assert (A : maxAltitude a' <= Position.altitude start ->
              maxAltitudeReachedTime a'
              = Some (timeline realm (S (clockReads s)))).
  { intros L. apply Qle_bool_iff in L. rewrite L in Hreached. exact Hreached. }
  split.
  - intros L. apply Qle_bool_false_iff in L. rewrite L in Hreached.
    exact Hreached.
  - split; [exact A|].
    intros L. apply A. apply Qle_bool_iff in L. rewrite L in Hmax.
    rewrite Hmax. lra.
Qed.

(** X8.  Constructing the animator on a WorldWindow emits nothing and leaves
    the view alone; the animator it builds is not cancelled, and a [goTo]
    on it registers its tick after the default 20 ms and plans with the
    default travel time of 3000 ms. *)
Theorem constructed_animator_uses_the_defaults
  (w : WorldWindow Nav) (p : PositionArg) (callback : option Callback)
  (s0 : State Nav) :
  exists s1,
    GoToAnimator_constructor realm (Some w) s0 = (Normal tt, s1, [])
    /\ navigator s1 = navigator s0
    /\ cancelled (this s1) = false
    /\ wwd (this s1) = w
    /\ forall r s2 events,
         goTo realm (Some p) callback s1 = (r, s2, events) ->
         (events = [] \/ events = [SetTimeout 20])
         /\ travelTime (this s2) = 3000
         /\ wwd (this s2) = w.
Proof.
  eexists. split; [reflexivity|].
  split; [reflexivity|]. split; [reflexivity|]. split; [reflexivity|].
  intros r s2 events H.
  pose proof (goTo_fields _ _ _ _ _ _ H) as F. cbv zeta in F.
  destruct F as (_ & Hw & Ht & _ & _ & _ & _ & _ & _ & Hv).
  split; [destruct Hv as [[_ ->]|(_ & -> & _)]; auto|].
  split; [rewrite Ht; reflexivity|rewrite Hw; reflexivity].
Qed.

(** ** The altitude profile over a run *)

(** X9.  With a range velocity that is not negative and a clock that has
    not gone back behind the start of the run (or of the settling phase),
    the altitude [updateRange] writes stays between the lowest and the
    highest of the start altitude, the peak and the target altitude; it is
    never above the higher of peak and target. *)
Theorem written_altitude_stays_in_range
  (currentPosition : Position.t) (s : State Nav) :
  let a := this s in
  let now := timeline realm (clockReads s) in
  0 <= rangeVelocity a ->
  startTime a <= now ->
  toNumber (maxAltitudeReachedTime a) <= now ->
  forall r s' written,
    updateRange realm currentPosition s = (r, s', [SetAsCamera written]) ->
    Qmin (Qmin (Position.altitude (startPosition a)) (maxAltitude a))
         (Position.altitude (targetPosition a))
      <= Camera.altitude written
    /\ Camera.altitude written
       <= Qmax (maxAltitude a) (Position.altitude (targetPosition a)).
Proof.
  intros a now Hv Hstart Hreached r s' written H.
  destruct (falsy (maxAltitudeReachedTime (this s))) eqn:F.
  - rewrite (updateRange_rising currentPosition s F) in H.
    fold a now in H.
    assert (P : 0 <= rangeVelocity a * (now - startTime a))
      by (apply Qmult_le_0_compat; lra).
    set (e := rangeVelocity a * (now - startTime a)) in *.
    inversion H; subst written; simpl. min_max_lra.
  - rewrite (updateRange_settling currentPosition s F) in H.
    fold a now in H.
    assert (P : 0 <= rangeVelocity a
                     * (now - toNumber (maxAltitudeReachedTime a)))
      by (apply Qmult_le_0_compat; lra).
    set (e := rangeVelocity a
              * (now - toNumber (maxAltitudeReachedTime a))) in *.
    inversion H; subst written; simpl.
    destruct (Qlt_bool (Position.altitude (targetPosition a)) (maxAltitude a))
      eqn:D;
      [apply Qlt_bool_iff in D|apply Qlt_bool_false_iff in D];
      min_max_lra.
Qed.

(** X10.  While a run is rising, a later clock reading never gives a lower
    altitude: of two calls of [updateRange] on the same run, both before the
    peak is marked reached, the one that reads the later time writes an
    altitude at least as high, and none writes above the peak. *)
Theorem rising_altitude_never_decreases
  (p1 p2 : Position.t) (s1 s2 : State Nav) :
  sameRun (this s1) (this s2) ->
  maxAltitudeReachedTime (this s1) = None ->
  maxAltitudeReachedTime (this s2) = None ->
  0 <= rangeVelocity (this s1) ->
  timeline realm (clockReads s1) <= timeline realm (clockReads s2) ->
  forall r1 s1' w1 r2 s2' w2,
    updateRange realm p1 s1 = (r1, s1', [SetAsCamera w1]) ->
    updateRange realm p2 s2 = (r2, s2', [SetAsCamera w2]) ->
    Camera.altitude w1 <= Camera.altitude w2
    /\ Camera.altitude w2 <= maxAltitude (this s2).
Proof.
  intros (_ & _ & Hs & Ht & Hm & _ & Hv) U1 U2 Hpos Hclock
         r1 s1' w1 r2 s2' w2 E1 E2.
  assert (F1 : falsy (maxAltitudeReachedTime (this s1)) = true)
    by (rewrite U1; reflexivity).
  assert (F2 : falsy (maxAltitudeReachedTime (this s2)) = true)
    by (rewrite U2; reflexivity).
  rewrite (updateRange_rising p1 s1 F1) in E1.
  rewrite (updateRange_rising p2 s2 F2) in E2.
  rewrite Hs, Ht, Hm, Hv in E1. rewrite Hv in Hpos.
  assert (P : rangeVelocity (this s2)
              * (timeline realm (clockReads s1) - startTime (this s2))
              <= rangeVelocity (this s2)
                 * (timeline realm (clockReads s2) - startTime (this s2))).
  { rewrite !(Qmult_comm (rangeVelocity (this s2))).
    apply Qmult_le_compat_r; lra. }
  set (e1 := rangeVelocity (this s2)
             * (timeline realm (clockReads s1) - startTime (this s2))) in *.
  set (e2 := rangeVelocity (this s2)
             * (timeline realm (clockReads s2) - startTime (this s2))) in *.
  inversion E1; subst w1. inversion E2; subst w2. simpl.
  split; min_max_lra.
Qed.

(** X11.  While a run is settling, a later clock reading never gives an
    altitude further from the target: of two calls of [updateRange] on the
    same run in its settling phase, the one that reads the later time writes
    an altitude at least as close to [target.altitude]. *)
Theorem settling_altitude_approaches_target
  (p1 p2 : Position.t) (s1 s2 : State Nav) (reached : Q) :
  sameRun (this s1) (this s2) ->
  maxAltitudeReachedTime (this s1) = Some reached ->
  maxAltitudeReachedTime (this s2) = Some reached ->
  ~ reached == 0 ->
  0 <= rangeVelocity (this s1) ->
  timeline realm (clockReads s1) <= timeline realm (clockReads s2) ->
  forall r1 s1' w1 r2 s2' w2,
    updateRange realm p1 s1 = (r1, s1', [SetAsCamera w1]) ->
    updateRange realm p2 s2 = (r2, s2', [SetAsCamera w2]) ->
    Qabs (Camera.altitude w2 - Position.altitude (targetPosition (this s2)))
    <= Qabs (Camera.altitude w1
             - Position.altitude (targetPosition (this s2))).
Proof.
  intros (_ & Htarget & _ & _ & Hm & _ & Hv) U1 U2 Hnz Hpos Hclock
         r1 s1' w1 r2 s2' w2 E1 E2.
  assert (F : forall x : State Nav,
             maxAltitudeReachedTime (this x) = Some reached ->
             falsy (maxAltitudeReachedTime (this x)) = false).
  { intros x U. rewrite U. simpl.
    destruct (Qeq_bool reached 0) eqn:Z; [|reflexivity].
    apply Qeq_bool_iff in Z. contradiction. }
  rewrite (updateRange_settling p1 s1 (F _ U1)) in E1.
  rewrite (updateRange_settling p2 s2 (F _ U2)) in E2.
  rewrite U1 in E1. rewrite U2 in E2. simpl toNumber in E1, E2.
  rewrite Htarget, Hm, Hv in E1. rewrite Hv in Hpos.
  assert (P : rangeVelocity (this s2)
              * (timeline realm (clockReads s1) - reached)
              <= rangeVelocity (this s2)
                 * (timeline realm (clockReads s2) - reached)).
  { rewrite !(Qmult_comm (rangeVelocity (this s2))).
    apply Qmult_le_compat_r; lra. }
  set (e1 := rangeVelocity (this s2)
             * (timeline realm (clockReads s1) - reached)) in *.
  set (e2 := rangeVelocity (this s2)
             * (timeline realm (clockReads s2) - reached)) in *.
  inversion E1; subst w1. inversion E2; subst w2.
  cbn [Camera.altitude Camera.set_altitude].
  destruct (Qlt_bool (Position.altitude (targetPosition (this s2)))
                     (maxAltitude (this s2))) eqn:D;
    [apply Qlt_bool_iff in D|apply Qlt_bool_false_iff in D];
    min_max_lra.
Qed.

(** X12.  The settling phase ends: once the range budget
    [rangeVelocity * elapsedSinceReached] covers the distance between the
    peak and the target altitude, [updateRange] writes [target.altitude]
    itself and reports done. *)
Theorem settling_reaches_target
  (currentPosition : Position.t) (s : State Nav) (reached : Q) :
  let a := this s in
  let target := Position.altitude (targetPosition a) in
  maxAltitudeReachedTime a = Some reached ->
  ~ reached == 0 ->
  Qabs (maxAltitude a - target)
    <= rangeVelocity a * (timeline realm (clockReads s) - reached) ->
  exists s' written,
    updateRange realm currentPosition s
      = (Normal false, s', [SetAsCamera written])
    /\ Camera.altitude written == target.
Proof.
  intros a target U Hnz Hbudget.
  assert (F : falsy (maxAltitudeReachedTime (this s)) = false).
  { fold a. rewrite U. simpl.
    destruct (Qeq_bool reached 0) eqn:Z; [|reflexivity].
    apply Qeq_bool_iff in Z. contradiction. }
  rewrite (updateRange_settling currentPosition s F).
  fold a target. rewrite U. simpl toNumber.
  set (e := rangeVelocity a * (timeline realm (clockReads s) - reached)) in *.
  assert (W : (if Qlt_bool target (maxAltitude a)
               then Qmax (maxAltitude a - e) target
               else Qmin (maxAltitude a + e) target) == target).
  { destruct (Qlt_bool target (maxAltitude a)) eqn:D;
      [apply Qlt_bool_iff in D|apply Qlt_bool_false_iff in D];
      min_max_lra. }
  set (x := if Qlt_bool target (maxAltitude a)
            then Qmax (maxAltitude a - e) target
            else Qmin (maxAltitude a + e) target) in *.
  assert (R : Qlt_bool 1 (Qabs (x - target)) = false)
    by (apply Qlt_bool_false_iff; min_max_lra).
  rewrite R. do 2 eexists. split; [reflexivity|exact W].
Qed.

(** ** How a run ends, or does not *)

(** A tick in the settling phase. *)
Lemma update_settling (s : State Nav) :
  falsy (maxAltitudeReachedTime (this s)) = false ->
  let a := this s in
  let camera := getAsCamera (wwd a) (navigator s) in
  let currentPosition :=
    Position.mk (Camera.latitude camera) (Camera.longitude camera)
                (Camera.altitude camera) in
  let target := Position.altitude (targetPosition a) in
  let elapsedSinceReached :=
    timeline realm (clockReads s) - toNumber (maxAltitudeReachedTime a) in
  let nextRange :=
    if Qlt_bool target (maxAltitude a)
    then Qmax (maxAltitude a - rangeVelocity a * elapsedSinceReached) target
    else Qmin (maxAltitude a + rangeVelocity a * elapsedSinceReached) target in
  let elapsed := timeline realm (S (clockReads s)) - startTime a in
  let nextDistance :=
    Qmin (panVelocity a * elapsed
          - greatCircleDistance realm (startPosition a) currentPosition)
         (greatCircleDistance realm currentPosition (targetPosition a)) in
  exists nav' w1 w2,
    update realm s
      = (Normal
           (negb (if Qlt_bool 4000 elapsed then true
                  else Qlt_bool nextDistance (1 / equatorialRadius (wwd a)))
            || Qlt_bool 1 (Qabs (nextRange - target))),
         mkState a nav' (S (S (clockReads s))),
         [SetAsCamera w1; SetAsCamera w2; Redraw])
    /\ Camera.altitude w1 = nextRange.
Proof.
  intros F. destruct s as [a nav n]. simpl in F.
  run. rewrite F. do 3 eexists. split; reflexivity.
Qed.

Lemma stuck_tick (s : State Nav) (reached : Q) :
  let a := this s in
  cancelled a = false ->
  maxAltitudeReachedTime a = Some reached ->
  ~ reached == 0 ->
  rangeVelocity a == 0 ->
  1 < Qabs (maxAltitude a - Position.altitude (targetPosition a)) ->
  exists nav' w1 w2,
    timerCallback realm s
      = (Normal tt, mkState a nav' (S (S (clockReads s))),
         [SetAsCamera w1; SetAsCamera w2; Redraw;
          SetTimeout (animationFrequency a)]).
Proof.
  intros a Hc U Hnz Hv Hfar.
  assert (F : falsy (maxAltitudeReachedTime (this s)) = false).
  { fold a. rewrite U. simpl.
    destruct (Qeq_bool reached 0) eqn:Z; [|reflexivity].
    apply Qeq_bool_iff in Z. contradiction. }
  destruct (update_settling s F) as (nav' & w1 & w2 & E & _).
  cbv zeta in E. fold a in E. rewrite U in E. simpl toNumber in E.
  match type of E with
  | context [_ || ?b] => assert (B : b = true)
  end.
  { apply Qlt_bool_iff.
    assert (Z : rangeVelocity a * (timeline realm (clockReads s) - reached)
                == 0) by (rewrite Hv; ring).
    set (e := rangeVelocity a * (timeline realm (clockReads s) - reached))
      in *.
    destruct (Qlt_bool (Position.altitude (targetPosition a)) (maxAltitude a))
      eqn:D;
      [apply Qlt_bool_iff in D|apply Qlt_bool_false_iff in D];
      min_max_lra. }
  rewrite B, orb_true_r in E.
  exists nav', w1, w2.
  unfold timerCallback, bind, getThis. fold a. rewrite Hc, E. reflexivity.
Qed.

(** X13.  A run can tick for ever.  In the settling phase, with a range
    velocity of zero and a peak more than 1 meter from the target altitude,
    no tick that is left undisturbed ends the run: each of the first [n]
    ticks registers the next one, and the completion callback is not
    called. *)
Theorem run_without_range_velocity_never_completes
  (n : nat) (s : State Nav) (reached : Q) :
  let a := this s in
  cancelled a = false ->
  maxAltitudeReachedTime a = Some reached ->
  ~ reached == 0 ->
  rangeVelocity a == 0 ->
  1 < Qabs (maxAltitude a - Position.altitude (targetPosition a)) ->
  count isSetTimeout (tickSequence realm (undisturbed n) s) = n
  /\ count isCompleted (tickSequence realm (undisturbed n) s) = 0%nat.
Proof.
  cbv zeta. revert s.
  induction n as [|n IH]; intros s Hc U Hnz Hv Hfar.
  - split; reflexivity.
  - destruct (stuck_tick s reached Hc U Hnz Hv Hfar)
      as (nav' & w1 & w2 & E).
    cbn [undisturbed List.repeat tickSequence]. rewrite E.
    cbn [existsb isSetTimeout orb].
    destruct (IH (mkState (this s) nav' (S (S (clockReads s))))
                 Hc U Hnz Hv Hfar) as [T C].
    fold (@undisturbed Nav n). rewrite !count_app, T, C.
    split; reflexivity.
Qed.

(** X14.  A tick ends the run when both budgets are spent: not cancelled,
    in the settling phase with the range budget covering the distance from
    the peak to the target altitude, and more than 4000 ms after the start,
    the tick writes the target altitude, asks for the redraw, registers no
    further tick and calls the completion callback if there is one. *)
Theorem tick_completes_when_budgets_are_spent (s : State Nav) (reached : Q) :
  let a := this s in
  let target := Position.altitude (targetPosition a) in
  cancelled a = false ->
  maxAltitudeReachedTime a = Some reached ->
  ~ reached == 0 ->
  Qabs (maxAltitude a - target)
    <= rangeVelocity a * (timeline realm (clockReads s) - reached) ->
  4000 < timeline realm (S (clockReads s)) - startTime a ->
  exists s' w1 w2,
    timerCallback realm s
      = (Normal tt, s',
         [SetAsCamera w1; SetAsCamera w2; Redraw]
         ++ match completionCallback a with
            | Some callback => [Completed callback]
            | None => []
            end)
    /\ Camera.altitude w1 == target.
Proof.
  intros a target Hc U Hnz Hbudget Hlate.
  assert (F : falsy (maxAltitudeReachedTime (this s)) = false).
  { fold a. rewrite U. simpl.
    destruct (Qeq_bool reached 0) eqn:Z; [|reflexivity].
    apply Qeq_bool_iff in Z. contradiction. }
  destruct (update_settling s F) as (nav' & w1 & w2 & E & A).
  cbv zeta in E, A. fold a target in E, A. rewrite U in E, A.
  simpl toNumber in E, A.
  apply Qlt_bool_iff in Hlate. rewrite Hlate in E. simpl negb in E.
  set (e := rangeVelocity a * (timeline realm (clockReads s) - reached)) in *.
  set (x := if Qlt_bool target (maxAltitude a)
            then Qmax (maxAltitude a - e) target
            else Qmin (maxAltitude a + e) target) in *.
  assert (W : x == target).
  { unfold x.
    destruct (Qlt_bool target (maxAltitude a)) eqn:D;
      [apply Qlt_bool_iff in D|apply Qlt_bool_false_iff in D];
      min_max_lra. }
  assert (R : Qlt_bool 1 (Qabs (x - target)) = false)
    by (apply Qlt_bool_false_iff; min_max_lra).
  rewrite R in E. simpl orb in E.
  exists (mkState a nav' (S (S (clockReads s)))), w1, w2. split.
  - unfold timerCallback, bind, getThis. fold a. rewrite Hc, E.
    cbn [this]. destruct (completionCallback a); reflexivity.
  - rewrite A. exact W.
Qed.

Lemma timerCallback_callback (s : State Nav) :
  forall r s' events, timerCallback realm s = (r, s', events) ->
    completionCallback (this s') = completionCallback (this s)
    /\ forall c, In (Completed c) events ->
                 completionCallback (this s) = Some c.
Proof.
  intros r s' events H.
  unfold timerCallback, bind, getThis, emit, ret in H.
  destruct (cancelled (this s)).
  - destruct (completionCallback (this s)) as [cb|] eqn:C;
      inversion H; subst; (split; [assumption|]); intros c0 I.
    + destruct I as [I|[]]. inversion I. reflexivity.
    + destruct I.
  - destruct (update_events s) as (running & s1 & w1 & w2 & E & _ & Hcb & _).
    rewrite E in H.
    destruct running.
    + inversion H; subst. split; [exact Hcb|].
      intros c [I|[I|[I|[I|[]]]]]; discriminate I.
    + destruct (completionCallback (this s1)) as [cb|] eqn:C;
        inversion H; subst; (split; [congruence|]); intros c0 I.
      * destruct I as [I|[I|[I|[I|[]]]]]; try discriminate I.
        inversion I. subst. symmetry. exact Hcb.
      * destruct I as [I|[I|[I|[]]]]; discriminate I.
Qed.

(** X15.  A run completes the callback of the latest [goTo] only: over the
    tick sequence that follows a [goTo] call, as long as nothing between the
    ticks replaces the stored callback, every completion the ticks make calls
    the callback given to that call. *)
Theorem run_completes_the_callback_of_its_goTo
  (p : PositionArg) (callback : option Callback)
  (interference : list (State Nav -> State Nav)) (s : State Nav) :
  forall r s' events, goTo realm (Some p) callback s = (r, s', events) ->
  Forall (fun before : State Nav -> State Nav =>
            forall x, completionCallback (this (before x))
                      = completionCallback (this x)) interference ->
  forall c, In (Completed c) (tickSequence realm interference s') ->
            callback = Some c.
Proof.
  intros r s' events H Hkeep c I.
  pose proof (goTo_fields _ _ _ _ _ _ H) as F. cbv zeta in F.
  destruct F as (_ & _ & _ & _ & _ & _ & _ & _ & Hcb & _).
  rewrite <- Hcb. clear H Hcb. revert s' I.
  induction Hkeep as [|before rest Hb _ IH]; intros s' I; simpl in I.
  - contradiction.
  - destruct (timerCallback realm (before s')) as [[r1 s1] ev1] eqn:E.
    destruct (timerCallback_callback _ _ _ _ E) as [K C].
    apply in_app_or in I. destruct I as [I|I].
    + rewrite <- Hb. apply C. exact I.
    + destruct (existsb isSetTimeout ev1); [|contradiction].
      rewrite <- Hb, <- K. apply IH. exact I.
Qed.

(** X16.  Arrival on schedule: when the live position is less than the
    angle of one meter from the target and the pan budget is not behind the
    distance travelled, the pan sub-motion takes a forward step no longer
    than the distance that remains, so shorter than a meter, and reports
    done. *)
Theorem updateLocation_reports_arrival
  (currentPosition : Position.t) (s : State Nav) :
  let a := this s in
  let elapsed := timeline realm (clockReads s) - startTime a in
  let distanceTravelled :=
    greatCircleDistance realm (startPosition a) currentPosition in
  let distanceRemaining :=
    greatCircleDistance realm currentPosition (targetPosition a) in
  let stepDistance :=
    Qmin (panVelocity a * elapsed - distanceTravelled) distanceRemaining in
  0 <= distanceRemaining ->
  distanceRemaining < 1 / equatorialRadius (wwd a) ->
  distanceTravelled <= panVelocity a * elapsed ->
  0 <= stepDistance
  /\ stepDistance <= distanceRemaining
  /\ exists s' written,
       updateLocation realm currentPosition s
         = (Normal false, s', [SetAsCamera written])
       /\ Camera.latitude written
          = Location.latitude
              (greatCircleLocation realm currentPosition
                 (greatCircleAzimuth realm currentPosition (targetPosition a))
                 stepDistance)
       /\ Camera.longitude written
          = Location.longitude
              (greatCircleLocation realm currentPosition
                 (greatCircleAzimuth realm currentPosition (targetPosition a))
                 stepDistance).
Proof.
  intros a elapsed travelled remaining stepDistance Hpos Hnear Hbudget.
  assert (L : stepDistance <= remaining) by apply Q.le_min_r.
  assert (P : 0 <= stepDistance) by (unfold stepDistance; min_max_lra).
  split; [exact P|]. split; [exact L|].
  rewrite updateLocation_run.
  fold a elapsed travelled remaining stepDistance.
  assert (D : Qlt_bool stepDistance (1 / equatorialRadius (wwd a)) = true)
    by (apply Qlt_bool_iff; lra).
  rewrite D. do 2 eexists.
  split; [destruct (Qlt_bool 4000 elapsed); reflexivity|].
  split; reflexivity.
Qed.

End Properties.

(** * The properties on the host *)

(** The parts of what a call on the host returns. *)
Lemma call_eta (position : PositionArg) (camera : Camera.t) :
  goTo Host.page (Some position) (Some 7%nat) (Host.viewing camera)
  = (fst (fst (Host.call position camera)), Host.started position camera,
     snd (Host.call position camera)).
Proof.
  unfold Host.started, Host.call.
  destruct (goTo Host.page (Some position) (Some 7%nat) (Host.viewing camera))
    as [[r s'] events].
  reflexivity.
Qed.

(** C9.  In a page whose global scope does not bind [ArgumentError] (the
    module's dependency list does not import it), constructing the animator
    without a WorldWindow and calling [goTo] without a position each throw
    before any write, but what is thrown is the ReferenceError of the
    identifier's lookup, not an ArgumentError, and the logger is not
    called. *)
Theorem missing_argument_throws_ReferenceError
  (origin step : Q) (callback : option Callback) (s : State Camera.t) :
  GoToAnimator_constructor (Host.realm origin step) None s
    = (Throw (ReferenceError "ArgumentError"), s, [])
  /\ goTo (Host.realm origin step) None callback s
     = (Throw (ReferenceError "ArgumentError"), s, []).
Proof. split; reflexivity. Qed.

(** C4.  The code moves the camera on a tick whose pan budget is
    exhausted.  The user has dragged the view half way to the target (from
    longitude 0 to 1/2, the target at longitude 1) before the first tick of
    a local run, so the budget of that tick is below the distance
    travelled.  [updateLocation] hands the negative step to the great-circle
    destination: it writes longitude 0.01198 where the live longitude is
    1/2, and reports the location reached.  The whole tick leaves the camera
    at longitude 0.01797, 0.98 degrees short of the target, registers no
    further tick and calls the completion callback. *)
Theorem updateLocation_budget_exhausted_moves_back :
  let s := Host.aheadRun in
  let a := this s in
  let live := Host.positionOf (getAsCamera (wwd a) (navigator s)) in
  let elapsed := timeline Host.page (clockReads s) - startTime a in
  panVelocity a * elapsed
    <= greatCircleDistance Host.page (startPosition a) live
  /\ Position.longitude live == 1 # 2
  /\ Position.longitude (targetPosition a) == 1
  /\ (exists s' written,
        updateLocation Host.page live s
          = (Normal false, s', [SetAsCamera written])
        /\ navigator s' = written
        /\ Camera.longitude written
           == 240000000000000000000 # 20037508342789241555641
        /\ ~ Camera.longitude written == Position.longitude live)
  /\ (exists w1 w2,
        snd (timerCallback Host.page s)
          = [SetAsCamera w1; SetAsCamera w2; Redraw; Completed 7%nat]
        /\ Camera.longitude w2
           == 360000000000000000000 # 20037508342789241555641).
Proof.
  cbv zeta. split; [apply Qle_bool_iff; vm_compute; reflexivity|].
  split; [reflexivity|]. split; [reflexivity|]. split.
  - rewrite updateLocation_run.
    do 2 eexists. split; [vm_compute; reflexivity|]. split; [reflexivity|].
    split; [vm_compute; reflexivity|].
    intro H. vm_compute in H. discriminate H.
  - vm_compute. do 2 eexists. split; [reflexivity|]. reflexivity.
Qed.

(** C8.  The code calls a completion callback twice.  A [goTo] made while
    a run is active registers a second timer on the same animator; no timer
    is cleared and both chains read the one stored callback.  On the host:
    [goTo] to (0, 0.001) with callback 1, then, before any tick, [goTo] to
    (0, 0.002) with callback 2.  The first firing moves the camera to the
    target and registers the next; the two firings that follow each find
    the run done and each call callback 2.  Callback 1 is never called. *)
Theorem overlapping_goTo_completes_twice :
  let events :=
    eventLoop Host.page Host.twoCalls 0
              (Host.viewing (Camera.mk 0 0 1000000 0 0 0)) in
  List.filter isCompleted events = [Completed 2%nat; Completed 2%nat]
  /\ count isSetTimeout events = 3%nat.
Proof. vm_compute. split; reflexivity. Qed.

(** C5 fails as stated.  A long move to the antipode that starts 20000 km
    up schedules ticks with [maxAltitude] at the chord distance 12756274 m,
    below [start.altitude]. *)
Lemma goTo_maxAltitude_below_start :
  let position := mkPositionArg 0 180 None in
  let a' := this Host.highRun in
  Host.call position Host.highCamera
    = (Normal tt, Host.highRun, [SetTimeout 20])
  /\ Position.altitude (startPosition a') = 20000000
  /\ maxAltitude a' == 12756274
  /\ ~ Position.altitude (startPosition a') <= maxAltitude a'.
Proof.
  cbv zeta. split.
  - vm_compute. reflexivity.
  - split; [vm_compute; reflexivity|].
    split; [vm_compute; reflexivity|].
    intro H. apply Qle_bool_iff in H. vm_compute in H. discriminate H.
Qed.

(** ** The theorems at work on the runs of the host *)

(** Discharges the first premise of [T] by evaluation of its boolean test. *)
Ltac premise_le T :=
  match type of T with
  | ?P -> _ =>
      let L := fresh "L" in
      assert (L : P) by (apply Qle_bool_iff; vm_compute; reflexivity);
      specialize (T L)
  end.

Ltac premise_lt T :=
  match type of T with
  | ?P -> _ =>
      let L := fresh "L" in
      assert (L : P) by (apply Qlt_bool_iff; vm_compute; reflexivity);
      specialize (T L)
  end.

Ltac premise_eq T :=
  match type of T with
  | ?P -> _ =>
      let L := fresh "L" in
      assert (L : P) by (vm_compute; reflexivity);
      specialize (T L)
  end.

(** The profile on the first tick of a long run (rising) and of a local
    run (settling). *)
Lemma updateRange_two_phase_profile_witness :
  maxAltitudeReachedTime (this Host.risingRun) = None
  /\ (exists s' written,
        updateRange Host.page (Host.positionOf (navigator Host.risingRun))
                    Host.risingRun
          = (Normal true, s', [SetAsCamera written])
        /\ Camera.altitude written == 3117562740 # 3000)
  /\ maxAltitudeReachedTime (this Host.settlingRun) = Some 1700000000005
  /\ (exists s' running written,
        updateRange Host.page (Host.positionOf (navigator Host.settlingRun))
                    Host.settlingRun
          = (Normal running, s', [SetAsCamera written])
        /\ Camera.altitude written
           <= Position.altitude (targetPosition (this Host.settlingRun))).
Proof.
  pose proof (updateRange_two_phase_profile Camera.t Host.page
                (Host.positionOf (navigator Host.risingRun)) Host.risingRun)
    as R.
  pose proof (updateRange_two_phase_profile Camera.t Host.page
                (Host.positionOf (navigator Host.settlingRun))
                Host.settlingRun)
    as S.
  cbv zeta in R, S. destruct R as [R _]. destruct S as [_ S].
  assert (H1 : maxAltitudeReachedTime (this Host.risingRun) = None)
    by (vm_compute; reflexivity).
  assert (H2 : maxAltitudeReachedTime (this Host.settlingRun)
               = Some 1700000000005)
    by (vm_compute; reflexivity).
  split; [exact H1|]. split.
  - destruct (R H1) as (s' & written & E & A & _).
    exists s', written. split; [exact E|].
    rewrite A. vm_compute. reflexivity.
  - split; [exact H2|].
    assert (H3 : ~ 1700000000005 == 0)
      by (intro Z; vm_compute in Z; discriminate Z).
    destruct (S _ H2 H3) as (s' & running & written & E & _ & _ & _ & _ & P & _).
    exists s', running, written. split; [exact E|].
    apply P. apply Qle_bool_iff. vm_compute. reflexivity.
Defined.

(** The local run, cancelled before its first tick. *)
Lemma cancel_ends_the_run_witness :
  let s := Host.cancelNow Host.settlingRun in
  cancelled (this s) = true
  /\ timerCallback Host.page s = (Normal tt, s, [Completed 7%nat]).
Proof.
  cbv zeta.
  pose proof (cancel_ends_the_run Camera.t Host.page
                (Host.cancelNow Host.settlingRun)) as (_ & _ & T & _).
  premise_eq T. split; [exact L|].
  rewrite T. vm_compute. reflexivity.
Defined.

(** The local run: [maxAltitude] is pinned and the move lasts about 835 ms
    of the 3000 ms travel time. *)
Lemma goTo_duration_and_velocities_witness :
  let a' := this Host.settlingRun in
  maxAltitude a' = Position.altitude (startPosition a')
  /\ exists duration : Q,
       duration == 20037508342789241555641 # 24000000000000000000
       /\ panVelocity a'
          = greatCircleDistance Host.page (startPosition a')
              (targetPosition a') / duration.
Proof.
  cbv zeta.
  pose proof (goTo_duration_and_velocities Camera.t Host.page _ _ _ _ _ _
                (call_eta (mkPositionArg 0 1 None)
                          (Camera.mk 0 0 1000000 0 0 0))) as T.
  premise_eq T. cbv zeta in T. premise_lt T.
  destruct T as (Hlocal & Hduration & _ & _ & Hpan & _).
  premise_le Hlocal. premise_le Hduration. premise_lt Hduration.
  premise_le Hduration.
  split; [exact Hlocal|].
  eexists. split; [|exact Hpan].
  rewrite Hduration. vm_compute. reflexivity.
Defined.

(** The velocities of the local run. *)
Lemma goTo_velocities_nonnegative_witness :
  0 <= panVelocity (this Host.settlingRun)
  /\ 0 <= rangeVelocity (this Host.settlingRun).
Proof.
  pose proof (goTo_velocities_nonnegative Camera.t Host.page _ _ _ _ _ _
                (call_eta (mkPositionArg 0 1 None)
                          (Camera.mk 0 0 1000000 0 0 0))) as T.
  premise_eq T. cbv zeta in T. premise_le T.
  destruct T as (P & R & _). split; [exact P|exact R].
Defined.

(** [goTo] to the location the camera is above, with no altitude given. *)
Lemma goTo_same_position_witness :
  let position := mkPositionArg 0 0 None in
  let camera := Camera.mk 0 0 1000000 0 0 0 in
  Host.call position camera = (Normal tt, Host.started position camera, []).
Proof.
  cbv zeta.
  pose proof (goTo_same_position Camera.t Host.page _ _ _ _ _ _
                (call_eta (mkPositionArg 0 0 None)
                          (Camera.mk 0 0 1000000 0 0 0))) as T.
  cbv zeta in T. premise_eq T. premise_eq T. premise_le T. premise_lt T.
  destruct T as [R E].
  unfold Host.call at 1. rewrite call_eta. rewrite R, E. reflexivity.
Defined.

(** ** The further properties at work on the runs of the host *)

(** The first tick of the local run on the host, whose navigator stores the
    camera. *)
Lemma update_leaves_both_writes_witness :
  exists running s' w1 w2,
    update Host.page Host.settlingRun
      = (Normal running, s', [SetAsCamera w1; SetAsCamera w2; Redraw])
    /\ navigator s' = w2
    /\ Camera.altitude w2 = Camera.altitude w1.
Proof.
  pose proof (update_leaves_both_writes Camera.t Host.page Host.settlingRun)
    as T.
  assert (H : forall c nav,
             getAsCamera (wwd (this Host.settlingRun))
               (setAsCamera (wwd (this Host.settlingRun)) c nav) = c)
    by (intros c nav; reflexivity).
  destruct (T H) as (running & s' & w1 & w2 & E & N & A & _).
  exists running, s', w1, w2. split; [exact E|]. split; [exact N|exact A].
Defined.

(** Two views of the same range, one above (0, 0) and one above (10, 20),
    resolve the same target for the location (0, 1). *)
Lemma getTargetPosition_keeps_the_framing_witness :
  let s1 := Host.viewing (Camera.mk 0 0 1000000 0 0 0) in
  let s2 := Host.viewing (Camera.mk 10 20 1000000 0 0 0) in
  exists target,
    getTargetPosition (mkPositionArg 0 1 None) s1 = (Normal target, s1, [])
    /\ getTargetPosition (mkPositionArg 0 1 None) s2 = (Normal target, s2, []).
Proof.
  cbv zeta.
  apply (getTargetPosition_keeps_the_framing Camera.t
           (mkPositionArg 0 1 None)
           (Host.viewing (Camera.mk 0 0 1000000 0 0 0))
           (Host.viewing (Camera.mk 10 20 1000000 0 0 0)));
    reflexivity.
Defined.

(** The local run: the view is where it was, the flag is clear and the
    callback is the one given. *)
Lemma goTo_takes_over_the_animator_witness :
  navigator Host.settlingRun = Camera.mk 0 0 1000000 0 0 0
  /\ cancelled (this Host.settlingRun) = false
  /\ completionCallback (this Host.settlingRun) = Some 7%nat.
Proof.
  pose proof (goTo_takes_over_the_animator Camera.t Host.page _ _ _ _ _ _
                (call_eta (mkPositionArg 0 1 None)
                          (Camera.mk 0 0 1000000 0 0 0))) as T.
  cbv zeta in T. destruct T as (N & _ & C & B & _).
  split; [exact N|]. split; [exact C|exact B].
Defined.

(** The local run is to a target one degree away: it registers its tick. *)
Lemma goTo_schedules_when_target_differs_witness :
  snd (Host.call (mkPositionArg 0 1 None) (Camera.mk 0 0 1000000 0 0 0))
  = [SetTimeout 20].
Proof.
  pose proof (goTo_schedules_when_target_differs Camera.t Host.page
                _ _ _ _ _ _
                (call_eta (mkPositionArg 0 1 None)
                          (Camera.mk 0 0 1000000 0 0 0))) as T.
  cbv zeta in T. premise_lt T. premise_le T.
  apply T. left. intro Z. vm_compute in Z. discriminate Z.
Defined.

(** The run that climbs 500 km without panning is planned over at most
    the travel time of 3000 ms. *)
Lemma goTo_yokes_both_motions_witness :
  let a' := this Host.climbRun in
  exists duration : Q,
    1 <= duration /\ duration <= 3000
    /\ rangeVelocity a'
       = rangeDistanceOf (maxAltitude a') (startPosition a')
                         (targetPosition a') / duration.
Proof.
  cbv zeta.
  pose proof (goTo_yokes_both_motions Camera.t Host.page _ _ _ _ _ _
                (call_eta (mkPositionArg 0 0 (Some 500000))
                          (Camera.mk 0 0 1000000 0 0 0))) as T.
  premise_eq T. cbv zeta in T.
  destruct T as (duration & Lo & U & _ & R).
  exists duration. split; [exact Lo|]. split; [|exact R].
  apply (Qle_trans _ _ _ U). apply Qle_bool_iff. vm_compute. reflexivity.
Defined.

(** The long run starts rising, the local run starts settling. *)
Lemma goTo_starts_in_the_right_phase_witness :
  maxAltitudeReachedTime (this Host.risingRun) = None
  /\ maxAltitudeReachedTime (this Host.settlingRun)
     = Some (timeline Host.page 1).
Proof.
  pose proof (goTo_starts_in_the_right_phase Camera.t Host.page _ _ _ _ _ _
                (call_eta (mkPositionArg 0 180 None)
                          (Camera.mk 0 0 1000000 0 0 0))) as R.
  pose proof (goTo_starts_in_the_right_phase Camera.t Host.page _ _ _ _ _ _
                (call_eta (mkPositionArg 0 1 None)
                          (Camera.mk 0 0 1000000 0 0 0))) as S.
  cbv zeta in R, S.
  destruct R as (R & _). destruct S as (_ & S1 & S2).
  premise_lt R. premise_le S1. premise_le S2.
  split; [exact R|exact S2].
Defined.

(** An animator constructed on the host's WorldWindow, then sent one degree
    east. *)
Lemma constructed_animator_uses_the_defaults_witness :
  exists s1,
    GoToAnimator_constructor Host.page (Some Host.window)
      (Host.viewing (Camera.mk 0 0 1000000 0 0 0))
    = (Normal tt, s1, [])
    /\ travelTime
         (this (snd (fst (goTo Host.page (Some (mkPositionArg 0 1 None))
                               None s1))))
       = 3000.
Proof.
  destruct (constructed_animator_uses_the_defaults Camera.t Host.page
              Host.window (mkPositionArg 0 1 None) None
              (Host.viewing (Camera.mk 0 0 1000000 0 0 0)))
    as (s1 & E & _ & _ & _ & G).
  exists s1. split; [exact E|].
  assert (H : forall X : Completion unit * State Camera.t * list Event,
             X = (fst (fst X), snd (fst X), snd X))
    by (intros [[r s2] events]; reflexivity).
  exact (proj1 (proj2 (G _ _ _ (H _)))).
Defined.

(** The first altitude of the long run lies between its start altitude and
    its peak. *)
Lemma written_altitude_stays_in_range_witness :
  exists r s' written,
    updateRange Host.page (Host.positionOf (navigator Host.risingRun))
                Host.risingRun
      = (r, s', [SetAsCamera written])
    /\ 1000000 <= Camera.altitude written
    /\ Camera.altitude written <= 12756274.
Proof.
  destruct (updateRange_shape Camera.t Host.page
              (Host.positionOf (navigator Host.risingRun)) Host.risingRun)
    as (r & s' & written & E & _).
  pose proof (written_altitude_stays_in_range Camera.t Host.page
                (Host.positionOf (navigator Host.risingRun)) Host.risingRun)
    as T.
  cbv zeta in T. premise_le T. premise_le T. premise_le T.
  destruct (T _ _ _ E) as [Lo Hi].
  exists (Normal r), s', written. split; [exact E|]. split.
  - refine (Qle_trans _ _ _ _ Lo). apply Qle_bool_iff. vm_compute. reflexivity.
  - apply (Qle_trans _ _ _ Hi). apply Qle_bool_iff. vm_compute. reflexivity.
Defined.

Lemma risingRun_sameRun (reads : nat) :
  sameRun (this Host.risingRun) (this (Host.later Host.risingRun reads)).
Proof.
  unfold sameRun, Host.later. cbn [this].
  repeat (split; [reflexivity|]). reflexivity.
Qed.

Lemma climbRun_sameRun (reads : nat) :
  sameRun (this Host.climbRun) (this (Host.later Host.climbRun reads)).
Proof.
  unfold sameRun, Host.later. cbn [this].
  repeat (split; [reflexivity|]). reflexivity.
Qed.

(** The long run, at its first clock reading and four readings later. *)
Lemma rising_altitude_never_decreases_witness :
  exists r1 s1' w1 r2 s2' w2,
    updateRange Host.page (Position.mk 0 0 0) Host.risingRun
      = (r1, s1', [SetAsCamera w1])
    /\ updateRange Host.page (Position.mk 0 0 0)
                   (Host.later Host.risingRun 5)
       = (r2, s2', [SetAsCamera w2])
    /\ Camera.altitude w1 <= Camera.altitude w2.
Proof.
  destruct (updateRange_shape Camera.t Host.page (Position.mk 0 0 0)
              Host.risingRun) as (r1 & s1' & w1 & E1 & _).
  destruct (updateRange_shape Camera.t Host.page (Position.mk 0 0 0)
              (Host.later Host.risingRun 5)) as (r2 & s2' & w2 & E2 & _).
  pose proof (rising_altitude_never_decreases Camera.t Host.page
                (Position.mk 0 0 0) (Position.mk 0 0 0)
                Host.risingRun (Host.later Host.risingRun 5)
                (risingRun_sameRun 5)) as T.
  premise_eq T. premise_eq T. premise_le T. premise_le T.
  exists (Normal r1), s1', w1, (Normal r2), s2', w2.
  split; [exact E1|]. split; [exact E2|].
  exact (proj1 (T _ _ _ _ _ _ E1 E2)).
Defined.

(** The climbing run, at its first settling reading and eight readings
    later. *)
Lemma settling_altitude_approaches_target_witness :
  exists r1 s1' w1 r2 s2' w2,
    updateRange Host.page (Position.mk 0 0 0) Host.climbRun
      = (r1, s1', [SetAsCamera w1])
    /\ updateRange Host.page (Position.mk 0 0 0)
                   (Host.later Host.climbRun 10)
       = (r2, s2', [SetAsCamera w2])
    /\ Qabs (Camera.altitude w2
             - Position.altitude
                 (targetPosition (this (Host.later Host.climbRun 10))))
       <= Qabs (Camera.altitude w1
                - Position.altitude
                    (targetPosition (this (Host.later Host.climbRun 10)))).
Proof.
  destruct (updateRange_shape Camera.t Host.page (Position.mk 0 0 0)
              Host.climbRun) as (r1 & s1' & w1 & E1 & _).
  destruct (updateRange_shape Camera.t Host.page (Position.mk 0 0 0)
              (Host.later Host.climbRun 10)) as (r2 & s2' & w2 & E2 & _).
  pose proof (settling_altitude_approaches_target Camera.t Host.page
                (Position.mk 0 0 0) (Position.mk 0 0 0)
                Host.climbRun (Host.later Host.climbRun 10) 1700000000005
                (climbRun_sameRun 10)) as T.
  premise_eq T. premise_eq T.
  assert (Z : ~ 1700000000005 == 0)
    by (intro Z; vm_compute in Z; discriminate Z).
  specialize (T Z). premise_le T. premise_le T.
  exists (Normal r1), s1', w1, (Normal r2), s2', w2.
  split; [exact E1|]. split; [exact E2|].
  exact (T _ _ _ _ _ _ E1 E2).
Defined.

(** The climbing run 4.5 seconds after its start: the climb of 500 km is
    done. *)
Lemma settling_reaches_target_witness :
  exists s' written,
    updateRange Host.page (Position.mk 0 0 0) (Host.later Host.climbRun 900)
      = (Normal false, s', [SetAsCamera written])
    /\ Camera.altitude written == 1500000.
Proof.
  pose proof (settling_reaches_target Camera.t Host.page (Position.mk 0 0 0)
                (Host.later Host.climbRun 900) 1700000000005) as T.
  cbv zeta in T. premise_eq T.
  assert (Z : ~ 1700000000005 == 0)
    by (intro Z; vm_compute in Z; discriminate Z).
  specialize (T Z). premise_le T.
  exact T.
Defined.

(** The long move that starts above the chord distance: its target altitude
    is its start altitude, so its range velocity is zero, while its peak is
    7243 km lower; its first three ticks each register the next. *)
Lemma run_without_range_velocity_never_completes_witness :
  count isSetTimeout (tickSequence Host.page (undisturbed 3) Host.highRun)
  = 3%nat
  /\ count isCompleted (tickSequence Host.page (undisturbed 3) Host.highRun)
     = 0%nat.
Proof.
  pose proof (run_without_range_velocity_never_completes Camera.t Host.page
                3 Host.highRun 1700000000005) as T.
  cbv zeta in T. premise_eq T. premise_eq T.
  assert (Z : ~ 1700000000005 == 0)
    by (intro Z; vm_compute in Z; discriminate Z).
  specialize (T Z). premise_eq T. premise_lt T.
  exact T.
Defined.

(** The climbing run 4.5 seconds after its start: the tick calls callback
    7 and registers nothing. *)
Lemma tick_completes_when_budgets_are_spent_witness :
  exists s' w1 w2,
    timerCallback Host.page (Host.later Host.climbRun 900)
    = (Normal tt, s',
       [SetAsCamera w1; SetAsCamera w2; Redraw; Completed 7%nat]).
Proof.
  pose proof (tick_completes_when_budgets_are_spent Camera.t Host.page
                (Host.later Host.climbRun 900) 1700000000005) as T.
  cbv zeta in T. premise_eq T. premise_eq T.
  assert (Z : ~ 1700000000005 == 0)
    by (intro Z; vm_compute in Z; discriminate Z).
  specialize (T Z). premise_le T. premise_lt T.
  destruct T as (s' & w1 & w2 & E & _).
  exists s', w1, w2. exact E.
Defined.

(** The local run, cancelled between its first and its second tick: what
    is completed is callback 7. *)
Lemma run_completes_the_callback_of_its_goTo_witness :
  Forall (fun e => match e with
                   | Completed c => Some 7%nat = Some c
                   | _ => True
                   end)
         (tickSequence Host.page [fun s => s; Host.cancelNow]
            (Host.started (mkPositionArg 0 1 None)
                          (Camera.mk 0 0 1000000 0 0 0))).
Proof.
  pose proof (run_completes_the_callback_of_its_goTo Camera.t Host.page
                (mkPositionArg 0 1 None) (Some 7%nat)
                [fun s => s; Host.cancelNow]
                (Host.viewing (Camera.mk 0 0 1000000 0 0 0)) _ _ _
                (call_eta (mkPositionArg 0 1 None)
                          (Camera.mk 0 0 1000000 0 0 0))) as T.
  assert (K : Forall (fun before : State Camera.t -> State Camera.t =>
                        forall x, completionCallback (this (before x))
                                  = completionCallback (this x))
                     [fun s => s; Host.cancelNow])
    by (repeat constructor).
  specialize (T K).
  apply Forall_forall. intros e I.
  destruct e as [camera| |delay|c|message]; try exact Logic.I.
  exact (T c I).
Defined.

(** The local run one second after its start, with the view above its
    target (0, 1): the budget covers the degree travelled, the step is zero
    and the camera stays. *)
Lemma updateLocation_reports_arrival_witness :
  let s := Host.later
             (Host.moved Host.settlingRun (Camera.mk 0 1 1000000 0 0 0))
             200 in
  exists s' written,
    updateLocation Host.page (Position.mk 0 1 1000000) s
      = (Normal false, s', [SetAsCamera written])
    /\ Camera.latitude written == 0
    /\ Camera.longitude written == 1.
Proof.
  cbv zeta.
  pose proof (updateLocation_reports_arrival Camera.t Host.page
                (Position.mk 0 1 1000000)
                (Host.later
                   (Host.moved Host.settlingRun (Camera.mk 0 1 1000000 0 0 0))
                   200))
    as T.
  cbv zeta in T. premise_le T. premise_lt T. premise_le T.
  destruct T as (_ & _ & s' & written & E & La & Lo).
  exists s', written. split; [exact E|].
  split; [rewrite La|rewrite Lo]; vm_compute; reflexivity.
Defined.
